(** * mailpilot-api: identity registry and quota ledger of [server.js]

    A shallow embedding of the authentication and rate-limiting core of
    [server.js] ([registerUser], [validateApiKey], [todayStr],
    [endOfDayUnix], [checkAndIncrement], [getUsage], the register route and
    the rate-limit middleware), with the properties of the written
    specification stated and settled against it.

    Conventions.
    - JavaScript numbers that hold counters and timestamps are integers
      well inside the exact range of a double; they are modelled as [Z].
      [NaN] is [None] where a function can produce it.
    - The module-level variables [users] and [usage] and the two JSON files
      are the fields of [State]; every function that touches them is a
      computation in the state-and-exception monad [M].
    - Everything the code takes from its environment (the clock, the random
      bytes, the UUID, whether [fs.writeFileSync] succeeds) is an explicit
      argument. *)

From Stdlib Require Import ZArith Lia List Ascii String DecimalString.
From stdpp Require Import base option list strings gmap.

Local Open Scope string_scope.
Local Open Scope Z_scope.

(** ** The ECMAScript date arithmetic used by [todayStr] and [endOfDayUnix]

    [Date] is a built-in; its abstract operations are transcribed from
    ECMA-262 (Time Values and Time Range, [MakeDay], [MakeDate],
    [TimeClip], [Date.UTC], [Date.prototype.toISOString]). A time value is
    a number of milliseconds since 1970-01-01T00:00:00Z. *)
Module JSDate.

Definition msPerDay : Z := 86400000.
Definition msPerHour : Z := 3600000.
Definition msPerMinute : Z := 60000.
Definition msPerSecond : Z := 1000.

(** [Day(t) = floor(t / msPerDay)]; [Z.div] rounds towards minus infinity. *)
Definition Day (t : Z) : Z := t / msPerDay.

Definition leap (y : Z) : bool :=
  (y mod 4 =? 0) && (negb (y mod 100 =? 0) || (y mod 400 =? 0)).

Definition DaysInYear (y : Z) : Z := if leap y then 366 else 365.

Definition DayFromYear (y : Z) : Z :=
  365 * (y - 1970) + (y - 1969) / 4 - (y - 1901) / 100 + (y - 1601) / 400.

Definition TimeFromYear (y : Z) : Z := msPerDay * DayFromYear y.

(** [YearFromTime(t)] is the largest [y] with [TimeFromYear(y) <= t]. The
    mean Gregorian year has 146097/400 days, which puts the answer within
    one of the estimate. *)
Definition YearFromDay (d : Z) : Z :=
  let y0 := 1970 + (400 * d) / 146097 in
  if DayFromYear (y0 + 1) <=? d then y0 + 1
  else if DayFromYear y0 <=? d then y0
  else y0 - 1.

Definition YearFromTime (t : Z) : Z := YearFromDay (Day t).

Definition InLeapYear (t : Z) : Z :=
  if leap (YearFromTime t) then 1 else 0.

Definition DayWithinYear (t : Z) : Z := Day t - DayFromYear (YearFromTime t).

(** Number of days of the year that precede month [m] (0 = January). *)
Definition monthStart (lp : Z) (m : Z) : Z :=
  match m with
  | 0 => 0
  | 1 => 31
  | 2 => 59 + lp
  | 3 => 90 + lp
  | 4 => 120 + lp
  | 5 => 151 + lp
  | 6 => 181 + lp
  | 7 => 212 + lp
  | 8 => 243 + lp
  | 9 => 273 + lp
  | 10 => 304 + lp
  | _ => 334 + lp
  end.

Definition monthOfYearDay (lp : Z) (d : Z) : Z :=
  if d <? 31 then 0
  else if d <? 59 + lp then 1
  else if d <? 90 + lp then 2
  else if d <? 120 + lp then 3
  else if d <? 151 + lp then 4
  else if d <? 181 + lp then 5
  else if d <? 212 + lp then 6
  else if d <? 243 + lp then 7
  else if d <? 273 + lp then 8
  else if d <? 304 + lp then 9
  else if d <? 334 + lp then 10
  else 11.

Definition MonthFromTime (t : Z) : Z :=
  monthOfYearDay (InLeapYear t) (DayWithinYear t).

Definition DateFromTime (t : Z) : Z :=
  DayWithinYear t - monthStart (InLeapYear t) (MonthFromTime t) + 1.

Definition HourFromTime (t : Z) : Z := (t / msPerHour) mod 24.
Definition MinFromTime (t : Z) : Z := (t / msPerMinute) mod 60.
Definition SecFromTime (t : Z) : Z := (t / msPerSecond) mod 60.
Definition msFromTime (t : Z) : Z := t mod msPerSecond.

(** [MakeDay(year, month, date)]: the day number of the first of the month
    [(year + floor(month / 12), month mod 12)], plus [date - 1]. *)
Definition MakeDay (year month date : Z) : Z :=
  let ym := year + month / 12 in
  let mn := month mod 12 in
  DayFromYear ym + monthStart (if leap ym then 1 else 0) mn + date - 1.

Definition MakeDate (day time : Z) : Z := day * msPerDay + time.

(** [TimeClip]: a time value beyond 8.64e15 ms is [NaN]. *)
Definition TimeClip (t : Z) : option Z :=
  if Z.abs t <=? 8640000000000000 then Some t else None.

(** [Date.UTC(year, month, date)] with the remaining fields at their
    defaults. A year from 0 to 99 means 1900 + year. *)
Definition UTC (year month date : Z) : option Z :=
  let yr := if (0 <=? year) && (year <=? 99) then 1900 + year else year in
  TimeClip (MakeDate (MakeDay yr month date) 0).

Definition getUTCFullYear (t : Z) : Z := YearFromTime t.
Definition getUTCMonth (t : Z) : Z := MonthFromTime t.
Definition getUTCDate (t : Z) : Z := DateFromTime t.

(** Decimal digits of a non-negative integer, left-padded with zeros. *)
Definition decimal (n : Z) : string :=
  NilZero.string_of_int (Z.to_int n).

Fixpoint zeros (n : nat) : string :=
  match n with
  | O => ""
  | S k => String "0" (zeros k)
  end.

Definition padStart (width : nat) (s : string) : string :=
  zeros (width - String.length s) ++ s.

Definition pad (width : nat) (n : Z) : string := padStart width (decimal n).

(** The year of [toISOString]: four digits from 0 to 9999, otherwise a sign
    and six digits. *)
Definition isoYear (y : Z) : string :=
  if (0 <=? y) && (y <=? 9999) then pad 4 y
  else (if 0 <=? y then "+" else "-") ++ pad 6 (Z.abs y).

Definition isoDate (t : Z) : string :=
  isoYear (YearFromTime t) ++ "-" ++ pad 2 (MonthFromTime t + 1) ++ "-"
    ++ pad 2 (DateFromTime t).

Definition isoTime (t : Z) : string :=
  pad 2 (HourFromTime t) ++ ":" ++ pad 2 (MinFromTime t) ++ ":"
    ++ pad 2 (SecFromTime t) ++ "." ++ pad 3 (msFromTime t) ++ "Z".

Definition toISOString (t : Z) : string := isoDate t ++ "T" ++ isoTime t.

End JSDate.

(** ** Plain objects used as maps

    [users.byKey], [users.byEmail] and [usage] are ordinary objects
    ([{}] or the result of [JSON.parse]), so their prototype is
    [Object.prototype]: [o[k]] answers with the own property [k] when there
    is one and with the member of [Object.prototype] of that name
    otherwise. The own properties are a [gmap]. *)
Module JSObject.

Definition Object_prototype_names : list string :=
  [ "constructor"; "__defineGetter__"; "__defineSetter__"; "hasOwnProperty";
    "__lookupGetter__"; "__lookupSetter__"; "isPrototypeOf";
    "propertyIsEnumerable"; "toString"; "valueOf"; "__proto__";
    "toLocaleString" ].

(** What an expression [o[k]] or [o[k] || null] can evaluate to. *)
Inductive Value (V : Type) : Type :=
  | Own (v : V)
  | Inherited (name : string)
  | Undefined
  | Null.
Arguments Own {V} v.
Arguments Inherited {V} name.
Arguments Undefined {V}.
Arguments Null {V}.

Definition inherits (k : string) : bool :=
  bool_decide (k ∈ Object_prototype_names).

(** [o[k]] *)
Definition get {V : Type} (o : gmap string V) (k : string) : Value V :=
  match o !! k with
  | Some v => Own v
  | None => if inherits k then Inherited k else Undefined
  end.

(** [o[k] = v] for a string [v]. Every member of [Object.prototype] is a
    writable data property, shadowed by the assignment, except the
    accessor [__proto__], whose setter ignores a value that is not an
    object. *)
Definition set_string (o : gmap string string) (k v : string)
  : gmap string string :=
  match o !! k with
  | None => if String.eqb k "__proto__" then o else <[k := v]> o
  | Some _ => <[k := v]> o
  end.

(** The property key that an inherited member turns into when it is used
    as [o[member]]: [Object.prototype] prints as [[object Object]], a
    built-in function as its native source text. *)
Definition inherited_key (name : string) : string :=
  if String.eqb name "__proto__" then "[object Object]"
  else "function "
         ++ (if String.eqb name "constructor" then "Object" else name)
         ++ "() { [native code] }".

(** Truthiness of a looked-up string and of a looked-up object. *)
Definition truthy_string (x : Value string) : bool :=
  match x with
  | Own v => negb (String.eqb v "")
  | Inherited _ => true
  | Undefined | Null => false
  end.

Definition truthy_object {V : Type} (x : Value V) : bool :=
  match x with
  | Own _ | Inherited _ => true
  | Undefined | Null => false
  end.

(** [ToPropertyKey] of a looked-up string. *)
Definition to_key (x : Value string) : string :=
  match x with
  | Own v => v
  | Inherited name => inherited_key name
  | Undefined => "undefined"
  | Null => "null"
  end.

(** [x || null] for an object-valued [x] *)
Definition or_null {V : Type} (x : Value V) : Value V :=
  if truthy_object x then x else Null.

(** [s.includes(c)] for a one-character needle *)
Fixpoint includes (s : string) (c : ascii) : bool :=
  match s with
  | EmptyString => false
  | String a rest => Ascii.eqb a c || includes rest c
  end.

(** [s.slice(0, n)] *)
Fixpoint slice0 (n : nat) (s : string) : string :=
  match n, s with
  | S k, String a rest => String a (slice0 k rest)
  | _, _ => EmptyString
  end.

End JSObject.

(** ** The state of the process and its effects *)

Inductive Plan : Type := free | pro.

(** [{ userId, email, plan, createdAt }] *)
Record UserRecord : Type := mkUser {
  userId : string;
  email : string;
  plan : Plan;
  createdAt : string;
}.

(** [users = { byKey, byEmail }] *)
Record Users : Type := mkUsers {
  byKey : gmap string UserRecord;
  byEmail : gmap string string;
}.

(** The two module variables and the content of the two files ([None]:
    the file does not exist or does not parse, so that [loadJSON] falls
    back). *)
Record State : Type := mkState {
  users : Users;
  usage : gmap string Z;
  USERS_FILE : option Users;
  USAGE_FILE : option (gmap string Z);
}.

(** [loadJSON(file, fallback)] *)
Definition loadJSON {A : Type} (file : option A) (fallback : A) : A :=
  default fallback file.

(** The state right after the module has been loaded on an empty data
    directory. *)
Definition boot : State :=
  {| users := loadJSON None {| byKey := ∅; byEmail := ∅ |};
     usage := loadJSON None ∅;
     USERS_FILE := None;
     USAGE_FILE := None |}.

(** A call either returns or throws; the only exception raised inside the
    core is the one of [fs.writeFileSync]. *)
Inductive Outcome (A : Type) : Type :=
  | Returned (a : A)
  | Thrown.
Arguments Returned {A} a.
Arguments Thrown {A}.

Definition M (A : Type) : Type := State -> Outcome A * State.

#[global] Instance M_ret : MRet M := fun A a s => (Returned a, s).
#[global] Instance M_bind : MBind M := fun A B f m s =>
  match m s with
  | (Returned a, s') => f a s'
  | (Thrown, s') => (Thrown, s')
  end.

Definition reads {A : Type} (f : State -> A) : M A :=
  fun s => (Returned (f s), s).
Definition modify (f : State -> State) : M unit :=
  fun s => (Returned tt, f s).
Definition throw {A : Type} : M A := fun s => (Thrown, s).

Definition result {A : Type} (r : Outcome A * State) : Outcome A := fst r.
Definition after {A : Type} (r : Outcome A * State) : State := snd r.

Definition with_users (f : Users -> Users) (s : State) : State :=
  {| users := f (users s); usage := usage s;
     USERS_FILE := USERS_FILE s; USAGE_FILE := USAGE_FILE s |}.
Definition with_usage (f : gmap string Z -> gmap string Z) (s : State)
  : State :=
  {| users := users s; usage := f (usage s);
     USERS_FILE := USERS_FILE s; USAGE_FILE := USAGE_FILE s |}.

(** [saveJSON(file, data)]: [fs.writeFileSync] either replaces the content
    of the file or throws. When it throws, the code does not determine
    what the file holds: it is untouched if it could not be opened, and
    empty or cut short, hence not parsable, if the write fails after the
    open, which truncates. What a failed write leaves in the file,
    [leaves], is therefore taken from the environment. *)
Definition persistUsers (write_ok : bool) (leaves : option Users) : M unit :=
  if write_ok
  then modify (fun s => {| users := users s; usage := usage s;
                           USERS_FILE := Some (users s);
                           USAGE_FILE := USAGE_FILE s |})
  else modify (fun s => {| users := users s; usage := usage s;
                           USERS_FILE := leaves;
                           USAGE_FILE := USAGE_FILE s |});;
       throw.

Definition persistUsage (write_ok : bool) (leaves : option (gmap string Z))
  : M unit :=
  if write_ok
  then modify (fun s => {| users := users s; usage := usage s;
                           USERS_FILE := USERS_FILE s;
                           USAGE_FILE := Some (usage s) |})
  else modify (fun s => {| users := users s; usage := usage s;
                           USERS_FILE := USERS_FILE s;
                           USAGE_FILE := leaves |});;
       throw.

(** Unfolds the monad in a goal. *)
Ltac run_M :=
  unfold mbind, M_bind, mret, M_ret, reads, modify, throw, persistUsage,
    persistUsers, with_usage, with_users; cbv beta iota zeta.

(** ** Identity registry *)
Import JSObject.

Definition hex_digit (n : N) : ascii :=
  match n with
  | 0%N => "0" | 1%N => "1" | 2%N => "2" | 3%N => "3" | 4%N => "4"
  | 5%N => "5" | 6%N => "6" | 7%N => "7" | 8%N => "8" | 9%N => "9"
  | 10%N => "a" | 11%N => "b" | 12%N => "c" | 13%N => "d" | 14%N => "e"
  | _ => "f"
  end%char.

(** [bytes.toString('hex')] *)
Fixpoint hex (bytes : list Byte.byte) : string :=
  match bytes with
  | [] => ""
  | b :: rest =>
      let n := Byte.to_N b in
      String (hex_digit (n / 16)) (String (hex_digit (n mod 16)) (hex rest))
  end.

(** [generateApiKey()], given the bytes drawn by [randomBytes(32)]. *)
Definition generateApiKey (bytes : list Byte.byte) : string :=
  "mp_" ++ hex bytes.

(** What one call of [registerUser] takes from its environment. *)
Record RegisterEnv : Type := mkRegisterEnv {
  randomBytes : list Byte.byte;   (* require('crypto').randomBytes(32) *)
  uuidv4 : string;                (* uuidv4() *)
  now : Z;                        (* new Date() *)
  write_ok : bool;                (* does fs.writeFileSync succeed *)
  write_leaves : option Users;    (* the users file after a failed write *)
}.

(** [{ apiKey, user }] *)
Record Registration : Type := mkRegistration {
  apiKey : Value string;
  user : Value UserRecord;
}.

(** [users.byKey[apiKey] = user] is a plain insertion: a generated key is
    never [__proto__] (lemma [generateApiKey_not_inherited]). The plan is
    ['free'] at registration; only [free] and [pro] have an entry in
    [LIMITS]. *)
Definition registerUser (env : RegisterEnv) (email : string)
  : M Registration :=
  existing ← reads (fun s => get (byEmail (users s)) email);
  found ← reads (fun s =>
    if truthy_string existing
    then get (byKey (users s)) (to_key existing)
    else Undefined);
  if truthy_string existing && truthy_object found
  then mret {| apiKey := existing; user := found |}
  else
    let apiKey := generateApiKey (randomBytes env) in
    let user := {| userId := uuidv4 env; email := email; plan := free;
                   createdAt := JSDate.toISOString (now env) |} in
    modify (with_users (fun u =>
      {| byKey := <[apiKey := user]> (byKey u); byEmail := byEmail u |}));;
    modify (with_users (fun u =>
      {| byKey := byKey u; byEmail := set_string (byEmail u) email apiKey |}));;
    persistUsers (write_ok env) (write_leaves env);;
    mret {| apiKey := Own apiKey; user := Own user |}.

(** The operation [register] of the specification: the validity check of
    the route [POST /api/auth/register] followed by [registerUser]. *)
Inductive RegisterResult : Type :=
  | InvalidRequest
  | Registered (r : Registration).

Definition register (env : RegisterEnv) (email : string)
  : M RegisterResult :=
  if String.eqb email "" || negb (includes email "@")
  then mret InvalidRequest
  else r ← registerUser env email; mret (Registered r).

Definition validateApiKey (apiKey : string) (s : State)
  : Value UserRecord :=
  if includes apiKey "@"
  then
    let storedKey := get (byEmail (users s)) apiKey in
    if negb (truthy_string storedKey) then Null
    else or_null (get (byKey (users s)) (to_key storedKey))
  else or_null (get (byKey (users s)) apiKey).

(** [authMiddleware], from the [X-API-Key] header to what ends up in
    [req.user]. *)
Inductive AuthResult : Type :=
  | Unauthorized
  | Authenticated (u : Value UserRecord).

Definition authMiddleware (header : option string) (s : State)
  : AuthResult :=
  match header with
  | None => Unauthorized
  | Some apiKey =>
      if String.eqb apiKey "" then Unauthorized
      else
        let user := validateApiKey apiKey s in
        if negb (truthy_object user) then Unauthorized
        else Authenticated user
  end.

(** ** Quota ledger *)

(** [LIMITS = { free: 10, pro: Infinity }] *)
Inductive Limit : Type := Finite (n : Z) | Infinity.

Definition LIMITS (p : Plan) : Limit :=
  match p with
  | free => Finite 10
  | pro => Infinity
  end.

(** [todayStr()] and [endOfDayUnix()], given the reading of the clock that
    each of them takes with [new Date()]. *)
Definition todayStr (now : Z) : string :=
  slice0 10 (JSDate.toISOString now).

Definition endOfDayUnix (now : Z) : option Z :=
  eod ← JSDate.UTC (JSDate.getUTCFullYear now) (JSDate.getUTCMonth now)
                   (JSDate.getUTCDate now + 1);
  Some (eod / 1000).

(** What one call of [checkAndIncrement] or [getUsage] takes from its
    environment: the clock is read once by [todayStr] and once more by
    [endOfDayUnix]. *)
Record LedgerEnv : Type := mkLedgerEnv {
  clock_today : Z;
  clock_eod : Z;
  usage_write_ok : bool;
  usage_write_leaves : option (gmap string Z);
}.

Record Headers : Type := mkHeaders {
  X_RateLimit_Limit : string;
  X_RateLimit_Remaining : string;
  X_RateLimit_Reset : string;
}.

(** [{ allowed, used, limit, remaining, resetAt, headers }] *)
Record Decision : Type := mkDecision {
  allowed : bool;
  used : Z;
  limit : Z;
  remaining : Z;
  resetAt : option Z;
  headers : Headers;
}.

(** [String(n)] for an integer and for [NaN] *)
Definition String_of_Z (n : Z) : string := NilZero.string_of_int (Z.to_int n).
Definition String_of_number (n : option Z) : string :=
  match n with
  | Some z => String_of_Z z
  | None => "NaN"
  end.

(** [`${user.userId}:${todayStr()}`] *)
Definition usageKey (u : UserRecord) (now : Z) : string :=
  userId u ++ ":" ++ todayStr now.

(** [usage[key] || 0]. The key holds a colon, so it is never the name of a
    member of [Object.prototype] (lemma [usageKey_not_inherited]). *)
Definition usedToday (usage : gmap string Z) (key : string) : Z :=
  match get usage key with
  | Own v => v
  | _ => 0
  end.

(** [used < limit] *)
Definition below (used : Z) (l : Limit) : bool :=
  match l with
  | Finite n => used <? n
  | Infinity => true
  end.

Definition checkAndIncrement (env : LedgerEnv) (u : UserRecord)
  : M Decision :=
  let key := usageKey u (clock_today env) in
  let limit := LIMITS (plan u) in
  let resetAt := endOfDayUnix (clock_eod env) in
  used ← reads (fun s => usedToday (usage s) key);
  let allowed := below used limit in
  let remaining :=
    Z.max 0 (match limit with Infinity => 9999 | Finite n => n - used end) in
  let headers :=
    {| X_RateLimit_Limit :=
         match limit with Infinity => "unlimited" | Finite n => String_of_Z n end;
       X_RateLimit_Remaining := String_of_Z remaining;
       X_RateLimit_Reset := String_of_number resetAt |} in
  (if allowed
   then modify (with_usage (fun m => <[key := used + 1]> m));;
        persistUsage (usage_write_ok env) (usage_write_leaves env)
   else mret tt);;
  mret {| allowed := allowed;
          used := if allowed then used + 1 else used;
          limit := match limit with Infinity => -1 | Finite n => n end;
          remaining := if allowed then remaining - 1 else remaining;
          resetAt := resetAt;
          headers := headers |}.

(** [{ plan, used_today, limit, remaining, resets_at }] *)
Record UsageSnapshot : Type := mkUsageSnapshot {
  snap_plan : Plan;
  used_today : Z;
  snap_limit : Z;
  snap_remaining : Z;
  resets_at : option Z;
}.

Definition getUsage (env : LedgerEnv) (u : UserRecord) (s : State)
  : UsageSnapshot :=
  let key := usageKey u (clock_today env) in
  let used := usedToday (usage s) key in
  let limit := LIMITS (plan u) in
  {| snap_plan := plan u;
     used_today := used;
     snap_limit := match limit with Infinity => -1 | Finite n => n end;
     snap_remaining :=
       match limit with Infinity => -1 | Finite n => Z.max 0 (n - used) end;
     resets_at := endOfDayUnix (clock_eod env) |}.

(** [rateLimitMiddleware]: either the 429 response with the headers set on
    it, or [next()] with the headers left in [req.rateHeaders] for the
    route to set on its response. *)
Inductive RateLimitResult : Type :=
  | RateLimitExceeded (response_headers : Headers)
  | Next (rateHeaders : Headers).

Definition rateLimitMiddleware (env : LedgerEnv) (u : UserRecord)
  : M RateLimitResult :=
  r ← checkAndIncrement env u;
  if negb (allowed r) then mret (RateLimitExceeded (headers r))
  else mret (Next (headers r)).

(** ** Runs of the ledger *)

(** The counter that the ledger reads for a key: [usage[key] || 0]. *)
Definition counter (s : State) (key : string) : Z := usedToday (usage s) key.

(** Calls of [checkAndIncrement] for one account, one after the other; a
    call that throws leaves a 500 response behind and the process goes on
    with the state it left. *)
Fixpoint checkAll (envs : list LedgerEnv) (u : UserRecord) (s : State)
  : list (Outcome Decision) * State :=
  match envs with
  | [] => ([], s)
  | env :: rest =>
      let r := checkAndIncrement env u s in
      let rs := checkAll rest u (after r) in
      (result r :: fst rs, snd rs)
  end.

(** An arbitrary sequence of ledger operations, on any accounts. *)
Inductive LedgerOp : Type :=
  | CheckAndConsume (env : LedgerEnv) (u : UserRecord)
  | Peek (env : LedgerEnv) (u : UserRecord).

Definition runOp (op : LedgerOp) (s : State) : State :=
  match op with
  | CheckAndConsume env u => after (checkAndIncrement env u s)
  | Peek env u => let _ := getUsage env u s in s
  end.


(** The epoch second of "tomorrow at 00:00 UTC", in the words of the
    specification: the first whole UTC day after the one that holds
    [now]. *)
Definition nextUtcMidnight (now : Z) : Z := (now / 86400000 + 1) * 86400.

(** ** Requests in flight

    The quota-gated routes are [authMiddleware, rateLimitMiddleware, async
    handler]. Express runs the middlewares and the handler up to its first
    [await] in one synchronous turn of the event loop; the rest of the
    handler runs in a later turn, once the backend has answered. Several
    requests of one account that are in flight at once are therefore a pool
    in which any request may take its next turn at any moment; a turn itself
    is not interrupted, since [checkAndIncrement] holds no [await] and
    [fs.writeFileSync] is synchronous. *)
Inductive Request : Type :=
  | Arrived (env : LedgerEnv)        (* received, not handled yet *)
  | Awaiting (h : Headers)           (* allowed, waiting for the backend *)
  | Served (h : Headers)             (* allowed, response sent *)
  | Rejected (h : Headers)           (* 429 sent *)
  | Crashed.                         (* the middleware threw: 500 sent *)

Definition handled (r : Outcome RateLimitResult) : Request :=
  match r with
  | Returned (Next h) => Awaiting h
  | Returned (RateLimitExceeded h) => Rejected h
  | Thrown => Crashed
  end.

Inductive turn (u : UserRecord)
  : State * list Request -> State * list Request -> Prop :=
  | turn_handle s env before later :
      turn u (s, (before ++ Arrived env :: later)%list)
             (after (rateLimitMiddleware env u s),
              (before ++ handled (result (rateLimitMiddleware env u s))
                 :: later)%list)
  | turn_resume s h before later :
      turn u (s, (before ++ Awaiting h :: later)%list)
             (s, (before ++ Served h :: later)%list).

Definition wasAllowed (r : Request) : bool :=
  match r with
  | Awaiting _ | Served _ => true
  | _ => false
  end.

Definition wasDenied (r : Request) : bool :=
  match r with
  | Rejected _ => true
  | _ => false
  end.

Definition answered (r : Request) : bool :=
  match r with
  | Served _ | Rejected _ | Crashed => true
  | Arrived _ | Awaiting _ => false
  end.

Definition notHandled (r : Request) : bool :=
  match r with
  | Arrived _ => true
  | _ => false
  end.

Fixpoint countIf (p : Request -> bool) (pool : list Request) : Z :=
  match pool with
  | [] => 0
  | r :: rest => (if p r then 1 else 0) + countIf p rest
  end.

(** What holds of every pool that can arise from requests of the account
    [u] that all arrive on the day [day], with the counter of that day at
    [c0] before the first of them is handled. *)
Record poolInvariant (u : UserRecord) (day c0 total : Z)
    (cfg : State * list Request) : Prop := mkPoolInvariant {
  inv_requests :
    Forall (fun r =>
              match r with
              | Arrived env => JSDate.Day (clock_today env) = day
                               /\ usage_write_ok env = true
              | Crashed => False
              | _ => True
              end) (snd cfg);
  inv_counter :
    forall t, JSDate.Day t = day ->
      counter (fst cfg) (usageKey u t) = c0 + countIf wasAllowed (snd cfg);
  inv_allowed :
    0 < countIf wasAllowed (snd cfg) ->
    c0 + countIf wasAllowed (snd cfg) <= 10;
  inv_denied :
    0 < countIf wasDenied (snd cfg) ->
    10 <= c0 + countIf wasAllowed (snd cfg);
  inv_total :
    countIf wasAllowed (snd cfg) + countIf wasDenied (snd cfg)
      + countIf notHandled (snd cfg) = total;
}.

(** Every stored credential is one that [generateApiKey] produced. *)
Definition credentialsGenerated (us : Users) : Prop :=
  forall e k, byEmail us !! e = Some k -> exists bytes, k = generateApiKey bytes.

(** ** Restart and persistence *)

(** The two loads that run when the module is loaded
    ([users = loadJSON(USERS_FILE, ...)], [usage = loadJSON(USAGE_FILE, {})]):
    what a restart of the process makes of the files. *)
Definition restart (s : State) : State :=
  {| users := loadJSON (USERS_FILE s) {| byKey := ∅; byEmail := ∅ |};
     usage := loadJSON (USAGE_FILE s) ∅;
     USERS_FILE := USERS_FILE s;
     USAGE_FILE := USAGE_FILE s |}.

(** One call into the core, with what it draws from its environment. *)
Inductive Call : Type :=
  | CallRegister (env : RegisterEnv) (email : string)
  | CallCheck (env : LedgerEnv) (u : UserRecord)
  | CallUsage (env : LedgerEnv) (u : UserRecord).

Definition runCall (c : Call) (s : State) : State :=
  match c with
  | CallRegister env email => after (register env email s)
  | CallCheck env u => after (checkAndIncrement env u s)
  | CallUsage env u => let _ := getUsage env u s in s
  end.

Definition runCalls (cs : list Call) (s : State) : State :=
  fold_left (fun st c => runCall c st) cs s.

(** Does every write that the call attempts succeed. *)
Definition writesSucceed (c : Call) : bool :=
  match c with
  | CallRegister env _ => write_ok env
  | CallCheck env _ => usage_write_ok env
  | CallUsage _ _ => true
  end.

(** Does the write of the users file, and that of the usage file,
    succeed if the call attempts it. *)
Definition usersWriteSucceeds (c : Call) : bool :=
  match c with
  | CallRegister env _ => write_ok env
  | _ => true
  end.

Definition usageWriteSucceeds (c : Call) : bool :=
  match c with
  | CallCheck env _ => usage_write_ok env
  | _ => true
  end.

(** Does the call draw a credential that no account has yet. *)
Definition drawsFreshKey (c : Call) (s : State) : Prop :=
  match c with
  | CallRegister env _ =>
      byKey (users s) !! generateApiKey (randomBytes env) = None
  | _ => True
  end.

(** The states that calls reach from [boot] when no two registrations
    draw the same credential. *)
Inductive reachable : State -> Prop :=
  | reachable_boot : reachable boot
  | reachable_call c s :
      reachable s -> drawsFreshKey c s -> reachable (runCall c s).

(** Every address leads to a generated credential, and that credential to
    a free-plan account with that very address. *)
Definition registryConsistent (us : Users) : Prop :=
  forall e k, byEmail us !! e = Some k ->
    (exists bytes, k = generateApiKey bytes)
    /\ includes e "@" = true
    /\ exists a, byKey us !! k = Some a /\ email a = e /\ plan a = free.

(** ** The routes *)

(** The body of a request to one of the three quota-gated routes, as far
    as the routes look at it before they call the backend: [subject] for
    [/api/generate], [text] and [tone] for [/api/rewrite], [messages] for
    [/api/summarize]; [None] is a missing field. *)
Inductive GatedRequest : Type :=
  | PostGenerate (subject : option string)
  | PostRewrite (text tone : option string)
  | PostSummarize (messages : option (list (string * string))).

Definition truthy_field (x : option string) : bool :=
  match x with
  | Some v => negb (String.eqb v "")
  | None => false
  end.

(** The negation of the test that sends 400: [!req.body.subject],
    [!req.body.text || !req.body.tone], [!req.body.messages?.length]. *)
Definition bodyAccepted (req : GatedRequest) : bool :=
  match req with
  | PostGenerate subject => truthy_field subject
  | PostRewrite text tone => truthy_field text && truthy_field tone
  | PostSummarize messages =>
      match messages with
      | Some (_ :: _) => true
      | _ => false
      end
  end.

(** A response: status, the [code] of its JSON body if it is an error,
    and the three rate-limit headers if they were set on it. *)
Record Response : Type := mkResponse {
  status : Z;
  code : option string;
  rateHeaders : option Headers;
}.

(** What handling one request came to: the response and whether the
    backend was called for it. *)
Record Handled : Type := mkHandled {
  response : Response;
  calledBackend : bool;
}.

(** *** The limiter on whatever is in [req.user]

    [authMiddleware] can leave a member of [Object.prototype] in
    [req.user]. [checkAndIncrement] and [rateLimitMiddleware] are
    therefore transcribed once more, statement by statement, for any
    value of [req.user]. A property that the value does not have reads as
    [undefined] ([None]); a template literal prints it as [undefined];
    [LIMITS[undefined]] is [undefined]; [used < undefined] is false;
    [undefined - used] is [NaN] and so is [Math.max(0, NaN)]; reading a
    property of [undefined] or [null] throws. *)
Definition propertyOf {A : Type} (field : UserRecord -> A)
    (user : Value UserRecord) : option A :=
  match user with
  | Own u => Some (field u)
  | _ => None
  end.

(** [{ allowed, used, limit, remaining, resetAt, headers }] with [limit]
    possibly [undefined] and [remaining] possibly [NaN]. *)
Record DecisionOn : Type := mkDecisionOn {
  on_allowed : bool;
  on_used : Z;
  on_limit : option Z;
  on_remaining : option Z;
  on_resetAt : option Z;
  on_headers : Headers;
}.

Definition checkAndIncrementOn (env : LedgerEnv) (user : Value UserRecord)
  : M DecisionOn :=
  match user with
  | Undefined | Null => throw
  | _ =>
      let key := default "undefined" (propertyOf userId user) ++ ":"
                   ++ todayStr (clock_today env) in
      let limit := LIMITS <$> propertyOf plan user in
      let resetAt := endOfDayUnix (clock_eod env) in
      used ← reads (fun s => usedToday (usage s) key);
      let allowed :=
        match limit with
        | Some l => below used l
        | None => false
        end in
      let remaining :=
        match limit with
        | Some Infinity => Some (Z.max 0 9999)
        | Some (Finite n) => Some (Z.max 0 (n - used))
        | None => None
        end in
      let headers :=
        {| X_RateLimit_Limit :=
             match limit with
             | Some Infinity => "unlimited"
             | Some (Finite n) => String_of_Z n
             | None => "undefined"
             end;
           X_RateLimit_Remaining := String_of_number remaining;
           X_RateLimit_Reset := String_of_number resetAt |} in
      (if allowed
       then modify (with_usage (fun m => <[key := used + 1]> m));;
            persistUsage (usage_write_ok env) (usage_write_leaves env)
       else mret tt);;
      mret {| on_allowed := allowed;
              on_used := if allowed then used + 1 else used;
              on_limit :=
                match limit with
                | Some Infinity => Some (-1)
                | Some (Finite n) => Some n
                | None => None
                end;
              on_remaining :=
                if allowed then (fun r => r - 1) <$> remaining else remaining;
              on_resetAt := resetAt;
              on_headers := headers |}
  end.

Definition rateLimitMiddlewareOn (env : LedgerEnv) (user : Value UserRecord)
  : M RateLimitResult :=
  r ← checkAndIncrementOn env user;
  if negb (on_allowed r) then mret (RateLimitExceeded (on_headers r))
  else mret (Next (on_headers r)).

(** [app.post('/api/generate' | '/api/rewrite' | '/api/summarize',
    authMiddleware, rateLimitMiddleware, async (req, res) => ...)].
    [backendOk] tells whether the call of the backend resolves; an
    exception thrown by the middleware itself is left to Express. *)
Definition gatedRoute (env : LedgerEnv) (backendOk : bool)
    (header : option string) (req : GatedRequest) : M Handled :=
  auth ← reads (authMiddleware header);
  match auth with
  | Unauthorized =>
      mret (mkHandled (mkResponse 401 (Some "UNAUTHORIZED") None) false)
  | Authenticated user =>
      limited ← rateLimitMiddlewareOn env user;
      match limited with
      | RateLimitExceeded h =>
          mret (mkHandled
                  (mkResponse 429 (Some "RATE_LIMIT_EXCEEDED") (Some h)) false)
      | Next h =>
          if negb (bodyAccepted req)
          then mret (mkHandled
                       (mkResponse 400 (Some "INVALID_REQUEST") None) false)
          else if backendOk
          then mret (mkHandled (mkResponse 200 None (Some h)) true)
          else mret (mkHandled
                       (mkResponse 500 (Some "INTERNAL_ERROR") None) true)
      end
  end.

(** [app.get('/api/usage', authMiddleware, (req, res) =>
    res.json(getUsage(req.user)))]. For a member of [Object.prototype] in
    [req.user] the plan and the limit are [undefined] and drop out of the
    JSON body, and the remaining quota is [NaN], printed as [null]; what
    is left is the count under the key of the user id [undefined] and the
    reset time. *)
Inductive UsageResponse : Type :=
  | UsageUnauthorized
  | UsageOk (snapshot : UsageSnapshot)
  | UsageOfMember (used_today : Z) (resets_at : option Z).

Definition usageRoute (env : LedgerEnv) (header : option string) (s : State)
  : UsageResponse :=
  match authMiddleware header s with
  | Unauthorized => UsageUnauthorized
  | Authenticated (Own u) => UsageOk (getUsage env u s)
  | Authenticated _ =>
      UsageOfMember
        (usedToday (usage s) ("undefined:" ++ todayStr (clock_today env)))
        (endOfDayUnix (clock_eod env))
  end.

(** Requests to a gated route with one credential and one body, served
    one after the other, the backend answering each time. *)
Fixpoint serveAll (envs : list LedgerEnv) (header : option string)
    (req : GatedRequest) (s : State) : list (Outcome Handled) * State :=
  match envs with
  | [] => ([], s)
  | env :: rest =>
      let r := gatedRoute env true header req s in
      let rs := serveAll rest header req (after r) in
      (result r :: fst rs, snd rs)
  end.


(** [TONE_INSTRUCTIONS] and the guide that [rewriteText] picks:
    [TONE_INSTRUCTIONS[req.tone] || TONE_INSTRUCTIONS.professional]. *)
Definition TONE_INSTRUCTIONS : gmap string string :=
  list_to_map
    [ ("professional",
       "Formal, polished, business-appropriate. Clear structure, proper grammar, respectful tone.");
      ("friendly",
       "Warm, approachable, conversational. Like writing to a colleague you like. Use contractions naturally.");
      ("direct",
       "Cut the fluff. State what you need clearly. Short sentences. No unnecessary pleasantries.");
      ("concise",
       "Minimize word count while preserving all meaning. Every word must earn its place.") ].

Definition toneGuide (tone : string) : Value string :=
  let guide := get TONE_INSTRUCTIONS tone in
  if truthy_string guide then guide else get TONE_INSTRUCTIONS "professional".

(** ** Reading a day string back

    The value of a string of decimal digits; it serves to state that the
    day string of [todayStr] determines the day. *)
Fixpoint readDigits (acc : Z) (s : string) : Z :=
  match s with
  | EmptyString => acc
  | String c rest =>
      readDigits (10 * acc + (Z.of_nat (nat_of_ascii c) - 48)) rest
  end.

(** A number printed on [w] digits fills the field exactly and reads
    back. *)
Definition fieldOk (w : nat) (n : Z) : bool :=
  Nat.eqb (String.length (JSDate.pad w n)) w
  && (readDigits 0 (JSDate.pad w n) =? n).

(** The first instant of the year 10000, where [toISOString] leaves the
    four-digit years. *)
Definition year10000 : Z := 253402300800000.

(** ** Reading a credential back

    The inverse of [hex_digit] and of [hex]; they serve to state that
    [generateApiKey] loses nothing of the random bytes. *)
Definition hex_value (c : ascii) : N :=
  let n := N_of_ascii c in
  if (n <? 58)%N then (n - 48)%N else (n - 87)%N.

Fixpoint unhex (s : string) : list Byte.byte :=
  match s with
  | String a (String b rest) =>
      match Byte.of_N (hex_value a * 16 + hex_value b) with
      | Some x => x :: unhex rest
      | None => []
      end
  | _ => []
  end.

Definition is_hex_digit (c : ascii) : bool :=
  let n := N_of_ascii c in
  ((48 <=? n) && (n <=? 57) || (97 <=? n) && (n <=? 102))%N.

Fixpoint all_chars (p : ascii -> bool) (s : string) : bool :=
  match s with
  | EmptyString => true
  | String c rest => p c && all_chars p rest
  end.

(** The markers that stand for "no limit": [-1] in the returned objects,
    ["unlimited"] in the [X-RateLimit-Limit] header. *)
Definition unboundedMarker : Z := -1.
Definition unboundedText : string := "unlimited".

(** ** Sample data *)

Definition alice : UserRecord :=
  {| userId := "6f1c2a4e-0d3b-4c58-9a77-1b2e3d4c5f60";
     email := "alice@example.com"; plan := free;
     createdAt := "2026-11-02T12:00:00.000Z" |}.

Definition carol : UserRecord :=
  {| userId := "0b9d8e7f-6a5b-4c3d-8e2f-1a0b9c8d7e6f";
     email := "carol@example.com"; plan := pro;
     createdAt := "2026-11-02T12:00:00.000Z" |}.

(** 2026-11-02T12:00:00.000Z, the write succeeds *)
Definition noon : LedgerEnv :=
  {| clock_today := 1793620800000; clock_eod := 1793620800000;
     usage_write_ok := true; usage_write_leaves := None |}.

(** 2023-12-31T23:59:59.999Z, the last millisecond of a year *)
Definition newYearsEve : LedgerEnv :=
  {| clock_today := 1704067199999; clock_eod := 1704067199999;
     usage_write_ok := true; usage_write_leaves := None |}.

(** A registration on 2026-11-02T12:00:00.000Z whose write succeeds, and
    the same with a write that fails and leaves the file cut short. *)
Definition signup : RegisterEnv :=
  {| randomBytes := replicate 32 Byte.xa7;
     uuidv4 := "6f1c2a4e-0d3b-4c58-9a77-1b2e3d4c5f60";
     now := 1793620800000; write_ok := true; write_leaves := None |}.

Definition signupDiskFull : RegisterEnv :=
  {| randomBytes := randomBytes signup; uuidv4 := uuidv4 signup;
     now := now signup; write_ok := false; write_leaves := None |}.

(** A later registration attempt, with other random bytes. *)
Definition signupAgain : RegisterEnv :=
  {| randomBytes := replicate 32 Byte.x3c;
     uuidv4 := "0b9d8e7f-6a5b-4c3d-8e2f-1a0b9c8d7e6f";
     now := 1793624400000; write_ok := true; write_leaves := None |}.

(** What the first registration of [alice@example.com] returns and the
    state it leaves. *)
Definition aliceKey : string := generateApiKey (randomBytes signup).

Definition aliceRegistration : RegisterResult :=
  Registered {| apiKey := Own aliceKey; user := Own alice |}.

Definition afterSignup : State :=
  after (register signup "alice@example.com" boot).

(** Eleven calls at [noon]. *)
Definition elevenCalls : list LedgerEnv := replicate 11 noon.

(** A state in which [alice] already stands at 15 for the day of [noon],
    more than the limit of her plan. *)
Definition overdrawn : State :=
  {| users := users boot;
     usage := {[ usageKey alice (clock_today noon) := 15 ]};
     USERS_FILE := None; USAGE_FILE := None |}.

(** One millisecond before and the first millisecond of 2026-11-03. *)
Definition lateEvening : LedgerEnv :=
  {| clock_today := 1793663999999; clock_eod := 1793663999999;
     usage_write_ok := true; usage_write_leaves := None |}.

Definition nextMorning : LedgerEnv :=
  {| clock_today := 1793664000000; clock_eod := 1793664000000;
     usage_write_ok := true; usage_write_leaves := None |}.

(** [noon] with a write that fails and leaves the file cut short. *)
Definition noonDiskFull : LedgerEnv :=
  {| clock_today := clock_today noon; clock_eod := clock_eod noon;
     usage_write_ok := false; usage_write_leaves := None |}.

(** [alice], registered, after eleven calls at [noon]: at her limit. *)
Definition exhausted : State := snd (checkAll elevenCalls alice afterSignup).


(** * Properties *)

Module JSDateFacts.
Import JSDate.

Lemma monthOfYearDay_range lp d : 0 <= monthOfYearDay lp d <= 11.
Proof.
  unfold monthOfYearDay.
  repeat match goal with |- context [if ?b then _ else _] => destruct b end; lia.
Qed.

Lemma MonthFromTime_range t : 0 <= MonthFromTime t <= 11.
Proof. apply monthOfYearDay_range. Qed.

Lemma YearFromDay_spec d :
  DayFromYear (YearFromDay d) <= d < DayFromYear (YearFromDay d + 1).
Proof.
  unfold YearFromDay.
  set (y0 := 1970 + 400 * d / 146097).
  destruct (Z.leb_spec (DayFromYear (y0 + 1)) d) as [H1|H1].
  - split; [exact H1|]. subst y0. unfold DayFromYear in *.
    Z.div_mod_to_equations. lia.
  - destruct (Z.leb_spec (DayFromYear y0) d) as [H0|H0].
    + split; [exact H0 | exact H1].
    + replace (y0 - 1 + 1) with y0 by lia. split; [|exact H0].
      subst y0. unfold DayFromYear in *. Z.div_mod_to_equations. lia.
Qed.

(** [YearFromTime] as ECMA-262 defines it: the largest [y] whose year has
    begun at [t]. *)
Lemma YearFromTime_spec t :
  TimeFromYear (YearFromTime t) <= t < TimeFromYear (YearFromTime t + 1).
Proof.
  pose proof (YearFromDay_spec (Day t)) as H.
  unfold TimeFromYear, YearFromTime, Day, msPerDay in *.
  Z.div_mod_to_equations. lia.
Qed.

Lemma DayFromYear_succ y : DayFromYear (y + 1) = DayFromYear y + DaysInYear y.
Proof.
  unfold DaysInYear, leap, DayFromYear.
  destruct (Z.eqb_spec (y mod 4) 0) as [H4|H4];
    destruct (Z.eqb_spec (y mod 100) 0) as [H100|H100];
    destruct (Z.eqb_spec (y mod 400) 0) as [H400|H400];
    cbn [andb orb negb]; Z.div_mod_to_equations; lia.
Qed.

Lemma DayWithinYear_range t :
  0 <= DayWithinYear t < DaysInYear (YearFromTime t).
Proof.
  unfold DayWithinYear, YearFromTime.
  pose proof (YearFromDay_spec (Day t)) as H.
  rewrite DayFromYear_succ in H. lia.
Qed.

Lemma DateFromTime_range t : 1 <= DateFromTime t <= 31.
Proof.
  pose proof (DayWithinYear_range t) as H.
  unfold DateFromTime, MonthFromTime, monthOfYearDay, InLeapYear, DaysInYear in *.
  destruct (leap (YearFromTime t));
    repeat match goal with
           | |- context [if ?a <? ?b then _ else _] =>
               destruct (Z.ltb_spec a b)
           end; cbn [monthStart]; lia.
Qed.

(** [MakeDay] of the fields of a time value gives back its day. *)
Lemma MakeDay_fields t :
  MakeDay (YearFromTime t) (MonthFromTime t) (DateFromTime t) = Day t.
Proof.
  pose proof (MonthFromTime_range t) as Hm.
  unfold MakeDay.
  rewrite (Z.div_small (MonthFromTime t) 12) by lia.
  rewrite (Z.mod_small (MonthFromTime t) 12) by lia.
  rewrite Z.add_0_r.
  unfold DateFromTime, DayWithinYear, InLeapYear. lia.
Qed.

End JSDateFacts.

(** ** Strings *)
Section StringFacts.

Lemma append_nil (b : string) : "" ++ b = b.
Proof. reflexivity. Qed.

Lemma append_cons (x : ascii) (a b : string) :
  String x a ++ b = String x (a ++ b).
Proof. reflexivity. Qed.

Lemma append_assoc (a b c : string) : (a ++ b) ++ c = a ++ (b ++ c).
Proof.
  induction a as [|x a IH]; [reflexivity|].
  rewrite !append_cons. now rewrite IH.
Qed.

Lemma length_append (a b : string) :
  String.length (a ++ b) = (String.length a + String.length b)%nat.
Proof.
  induction a as [|x a IH]; [reflexivity|].
  rewrite append_cons. simpl. now rewrite IH.
Qed.

Lemma includes_append (a b : string) (c : ascii) :
  includes (a ++ b) c = includes a c || includes b c.
Proof.
  induction a as [|x a IH]; [reflexivity|].
  rewrite append_cons. simpl. rewrite IH. now rewrite orb_assoc.
Qed.

Lemma slice0_append (n : nat) (a b : string) :
  (n <= String.length a)%nat -> slice0 n (a ++ b) = slice0 n a.
Proof.
  revert a. induction n as [|n IH]; intros a Hn.
  - now destruct a.
  - destruct a as [|x a]; simpl in Hn; [lia|].
    rewrite append_cons. simpl. rewrite IH; [reflexivity | lia].
Qed.

Lemma length_zeros (n : nat) : String.length (JSDate.zeros n) = n.
Proof. induction n as [|n IH]; simpl; [reflexivity | now rewrite IH]. Qed.

Lemma length_padStart (w : nat) (s : string) :
  (w <= String.length (JSDate.padStart w s))%nat.
Proof. unfold JSDate.padStart. rewrite length_append, length_zeros. lia. Qed.

Lemma length_isoYear (y : Z) : (4 <= String.length (JSDate.isoYear y))%nat.
Proof.
  unfold JSDate.isoYear, JSDate.pad.
  destruct ((0 <=? y) && (y <=? 9999)).
  - apply length_padStart.
  - rewrite length_append.
    pose proof (length_padStart 6 (JSDate.decimal (Z.abs y))). lia.
Qed.

(** No member of [Object.prototype] has a colon or an at sign in its
    name. *)
Lemma inherits_no_colon (k : string) :
  includes k ":" = true -> inherits k = false.
Proof.
  intros Hk. unfold inherits. apply bool_decide_eq_false. intros Hin.
  unfold Object_prototype_names in Hin.
  repeat (apply elem_of_cons in Hin as [->|Hin]; [discriminate Hk|]).
  inversion Hin.
Qed.

Lemma inherits_no_at (k : string) :
  includes k "@" = true -> inherits k = false.
Proof.
  intros Hk. unfold inherits. apply bool_decide_eq_false. intros Hin.
  unfold Object_prototype_names in Hin.
  repeat (apply elem_of_cons in Hin as [->|Hin]; [discriminate Hk|]).
  inversion Hin.
Qed.

Lemma hex_digit_not_at (n : N) : Ascii.eqb (hex_digit n) "@" = false.
Proof.
  destruct n as [|p]; [reflexivity|].
  do 5 (try (destruct p as [p|p|]; try reflexivity)).
Qed.

End StringFacts.

(** ** The calendar *)
Section CalendarFacts.
Import JSDate JSDateFacts.

Lemma YearFromDay_epoch (d : Z) : 0 <= d -> 1970 <= YearFromDay d.
Proof.
  intros Hd. pose proof (YearFromDay_spec d) as [_ Hlt].
  destruct (Z.le_gt_cases 1970 (YearFromDay d)) as [H|H]; [exact H|].
  exfalso. revert Hlt. generalize (YearFromDay d) H. intros y Hy.
  unfold DayFromYear. Z.div_mod_to_equations. lia.
Qed.

(** The day after [t], built the way [endOfDayUnix] builds it: same year,
    same month, date plus one. [MakeDay] carries the overflow into the
    next month or year, because it counts from the first of the month. *)
Lemma MakeDay_tomorrow (t : Z) :
  MakeDay (YearFromTime t) (MonthFromTime t) (DateFromTime t + 1) = Day t + 1.
Proof.
  pose proof (MonthFromTime_range t) as Hm.
  unfold MakeDay.
  rewrite (Z.div_small (MonthFromTime t) 12) by lia.
  rewrite (Z.mod_small (MonthFromTime t) 12) by lia.
  rewrite Z.add_0_r.
  unfold DateFromTime, DayWithinYear, InLeapYear. lia.
Qed.

Lemma endOfDayUnix_spec (now : Z) :
  0 <= now < 8640000000000000 ->
  endOfDayUnix now = Some (nextUtcMidnight now).
Proof.
  intros [Hlo Hhi].
  assert (Hday : 0 <= Day now < 100000000).
  { unfold Day, msPerDay. split.
    - apply Z.div_pos; lia.
    - apply Z.div_lt_upper_bound; lia. }
  pose proof (YearFromDay_epoch (Day now) (proj1 Hday)) as Hy.
  unfold endOfDayUnix, UTC, getUTCFullYear, getUTCMonth, getUTCDate.
  fold (YearFromTime now) in Hy.
  replace ((0 <=? YearFromTime now) && (YearFromTime now <=? 99)) with false
    by (symmetry; apply andb_false_iff; right; apply Z.leb_gt; lia).
  rewrite MakeDay_tomorrow.
  unfold MakeDate, TimeClip, nextUtcMidnight.
  unfold Day, msPerDay in *. set (d := now / 86400000) in *.
  replace (Z.abs ((d + 1) * 86400000 + 0) <=? 8640000000000000) with true
    by (symmetry; apply Z.leb_le; lia).
  simpl. f_equal.
  replace ((d + 1) * 86400000 + 0) with ((d + 1) * 86400 * 1000) by lia.
  apply Z.div_mul. lia.
Qed.

(** The midnight that is reported lies strictly after [now] and at most
    one day after it. *)
Lemma nextUtcMidnight_bounds (now : Z) :
  now < nextUtcMidnight now * 1000 <= now + 86400000.
Proof.
  unfold nextUtcMidnight. Z.div_mod_to_equations. lia.
Qed.

Lemma length_isoDate (t : Z) : (10 <= String.length (isoDate t))%nat.
Proof.
  unfold isoDate. rewrite !length_append.
  pose proof (length_isoYear (YearFromTime t)).
  pose proof (length_padStart 2 (decimal (MonthFromTime t + 1))).
  pose proof (length_padStart 2 (decimal (DateFromTime t))).
  unfold pad. simpl String.length. lia.
Qed.

Lemma todayStr_isoDate (t : Z) : todayStr t = slice0 10 (isoDate t).
Proof. apply slice0_append, length_isoDate. Qed.

(** Two readings of the clock on the same UTC day give the same day
    string, hence the same usage key. *)
Lemma todayStr_Day (t1 t2 : Z) : Day t1 = Day t2 -> todayStr t1 = todayStr t2.
Proof.
  intros H. rewrite !todayStr_isoDate.
  unfold isoDate, DateFromTime, MonthFromTime, DayWithinYear, InLeapYear,
    YearFromTime.
  now rewrite H.
Qed.

Lemma usageKey_Day (u : UserRecord) (t1 t2 : Z) :
  Day t1 = Day t2 -> usageKey u t1 = usageKey u t2.
Proof. intros H. unfold usageKey. now rewrite (todayStr_Day t1 t2 H). Qed.

Lemma usageKey_not_inherited (u : UserRecord) (t : Z) :
  inherits (usageKey u t) = false.
Proof.
  apply inherits_no_colon. unfold usageKey.
  rewrite !includes_append. simpl. now rewrite orb_true_r.
Qed.

(** [usage[key]] is therefore an own property or [undefined]. *)
Lemma usedToday_own (m : gmap string Z) (u : UserRecord) (t : Z) :
  usedToday m (usageKey u t) = default 0 (m !! usageKey u t).
Proof.
  unfold usedToday, get. destruct (m !! usageKey u t); [reflexivity|].
  now rewrite usageKey_not_inherited.
Qed.

End CalendarFacts.

(** ** One call of the ledger *)

Section LedgerFacts.

Lemma Returned_inj {A : Type} (a b : A) : Returned a = Returned b -> a = b.
Proof. intros H. now injection H. Qed.


(** What a call of [checkAndIncrement] does, by cases on the comparison
    [used < limit] and on the outcome of the write. *)
Lemma checkAndIncrement_run (env : LedgerEnv) (u : UserRecord) (s : State) :
  let key := usageKey u (clock_today env) in
  let c := counter s key in
  let lim := match LIMITS (plan u) with Infinity => -1 | Finite n => n end in
  let rem :=
    Z.max 0 (match LIMITS (plan u) with Infinity => 9999 | Finite n => n - c end) in
  let hs :=
    {| X_RateLimit_Limit :=
         match LIMITS (plan u) with
         | Infinity => "unlimited"
         | Finite n => String_of_Z n
         end;
       X_RateLimit_Remaining := String_of_Z rem;
       X_RateLimit_Reset := String_of_number (endOfDayUnix (clock_eod env)) |} in
  checkAndIncrement env u s =
    if below c (LIMITS (plan u))
    then
      if usage_write_ok env
      then (Returned (mkDecision true (c + 1) lim (rem - 1)
                        (endOfDayUnix (clock_eod env)) hs),
            mkState (users s) (<[key := c + 1]> (usage s)) (USERS_FILE s)
              (Some (<[key := c + 1]> (usage s))))
      else (Thrown,
            mkState (users s) (<[key := c + 1]> (usage s)) (USERS_FILE s)
              (usage_write_leaves env))
    else (Returned (mkDecision false c lim rem
                      (endOfDayUnix (clock_eod env)) hs), s).
Proof.
  intros key c lim rem hs. subst key c lim rem hs.
  unfold checkAndIncrement, counter. run_M.
  destruct (below _ _); [destruct (usage_write_ok env)|]; reflexivity.
Qed.

Lemma usedToday_insert (m : gmap string Z) (key k : string) (v : Z) :
  usedToday (<[key := v]> m) k = if decide (k = key) then v else usedToday m k.
Proof.
  unfold usedToday, get. destruct (decide (k = key)) as [->|Hne].
  - now rewrite lookup_insert_eq.
  - now rewrite lookup_insert_ne by congruence.
Qed.

(** The counters after a call: the one of the call's key goes up by one if
    the comparison let the call through, every other one is as before. *)
Lemma counter_after_check (env : LedgerEnv) (u : UserRecord) (s : State)
    (k : string) :
  counter (after (checkAndIncrement env u s)) k =
    if decide (k = usageKey u (clock_today env))
    then (if below (counter s k) (LIMITS (plan u))
          then counter s k + 1 else counter s k)
    else counter s k.
Proof.
  rewrite checkAndIncrement_run. unfold after.
  destruct (decide (k = usageKey u (clock_today env))) as [->|Hne].
  - destruct (below _ _); [destruct (usage_write_ok env)|];
      unfold counter; cbn [snd usage];
      rewrite ?usedToday_insert, ?decide_True by done; reflexivity.
  - destruct (below _ _); [destruct (usage_write_ok env)|];
      unfold counter; cbn [snd usage];
      rewrite ?usedToday_insert, ?decide_False by done; reflexivity.
Qed.

Lemma getUsage_pure (env : LedgerEnv) (u : UserRecord) (s : State) (k : string) :
  counter (runOp (Peek env u) s) k = counter s k.
Proof. reflexivity. Qed.



End LedgerFacts.

(** ** The quota ledger against the specification *)
Section LedgerClaims.

(** C10. For a free-plan account and any stored counter, also one above
    the limit, the remaining quota that [checkAndIncrement] returns, the
    one it puts in the header and the one of [getUsage] are never
    negative. The call returns unless the write of the usage file
    failed. *)
Theorem remaining_never_negative (env : LedgerEnv) (u : UserRecord)
    (s : State) :
  plan u = free ->
  match fst (checkAndIncrement env u s) with
  | Returned d =>
      0 <= remaining d /\
      exists r, 0 <= r /\ X_RateLimit_Remaining (headers d) = String_of_Z r
  | Thrown => usage_write_ok env = false
  end
  /\ 0 <= snap_remaining (getUsage env u s).
Proof.
  intros Hfree. split.
  - rewrite checkAndIncrement_run. rewrite Hfree. cbn [LIMITS below].
    destruct (Z.ltb_spec (counter s (usageKey u (clock_today env))) 10) as [Hlt|Hge].
    + destruct (usage_write_ok env); cbn [fst remaining headers X_RateLimit_Remaining];
        [|reflexivity].
      split; [lia|]. eexists; split; [|reflexivity]. lia.
    + cbn [fst remaining headers X_RateLimit_Remaining].
      split; [lia|]. eexists; split; [|reflexivity]. lia.
  - unfold getUsage. rewrite Hfree. cbn [LIMITS snap_remaining]. lia.
Qed.

Lemma remaining_never_negative_witness :
  plan alice = free /\
  (match fst (checkAndIncrement noon alice overdrawn) with
   | Returned d =>
       0 <= remaining d /\
       exists r, 0 <= r /\ X_RateLimit_Remaining (headers d) = String_of_Z r
   | Thrown => usage_write_ok noon = false
   end
   /\ 0 <= snap_remaining (getUsage noon alice overdrawn)).
Proof.
  split; [reflexivity|].
  apply (remaining_never_negative noon alice overdrawn). reflexivity.
Defined.

Example overdrawn_call_denied :
  checkAndIncrement noon alice overdrawn
  = (Returned (mkDecision false 15 10 0 (Some 1793664000)
                 (mkHeaders "10" "0" "1793664000")), overdrawn).
Proof. vm_compute. reflexivity. Qed.

(** What an allowed call on a free-plan account reports: the returned
    [remaining] counts the call itself, the header does not. *)
Lemma allowed_free_remaining (env : LedgerEnv) (u : UserRecord) (s : State)
    (d : Decision) (s' : State) :
  plan u = free ->
  checkAndIncrement env u s = (Returned d, s') ->
  allowed d = true ->
  let c := counter s (usageKey u (clock_today env)) in
  remaining d = 10 - (c + 1)
  /\ X_RateLimit_Remaining (headers d) = String_of_Z (10 - c)
  /\ counter s' (usageKey u (clock_today env)) = c + 1.
Proof.
  intros Hfree Hrun Hd c. subst c.
  pose proof (counter_after_check env u s (usageKey u (clock_today env))) as Hc.
  unfold after in Hc. rewrite Hrun in Hc. cbn [snd] in Hc.
  rewrite decide_True in Hc by reflexivity.
  apply (f_equal fst) in Hrun. cbn [fst] in Hrun.
  rewrite checkAndIncrement_run in Hrun. rewrite Hfree in *.
  cbn [LIMITS below] in *.
  destruct (Z.ltb_spec (counter s (usageKey u (clock_today env))) 10) as [Hlt|Hge].
  - destruct (usage_write_ok env); cbn [fst] in Hrun; [|discriminate Hrun].
    apply Returned_inj in Hrun. subst d.
    cbn [remaining headers X_RateLimit_Remaining].
    repeat split; [lia| f_equal; lia | exact Hc].
  - cbn [fst] in Hrun. apply Returned_inj in Hrun. subst d. discriminate Hd.
Qed.

(** C4. On a fresh day the first call of a free-plan account is allowed
    with [remaining = 9], which is [L - (c + 1)] for [c = 0], but the
    header [X-RateLimit-Remaining] that goes out with the response says
    ["10"]: it is computed before the increment. *)
Theorem header_remaining_is_before_increment :
  counter boot (usageKey alice (clock_today noon)) = 0
  /\ exists d,
    fst (checkAndIncrement noon alice boot) = Returned d
    /\ allowed d = true
    /\ remaining d = 10 - (0 + 1)
    /\ X_RateLimit_Remaining (headers d) = "10"
    /\ X_RateLimit_Remaining (headers d) <> String_of_Z (10 - (0 + 1))
    /\ fst (rateLimitMiddleware noon alice boot) = Returned (Next (headers d)).
Proof.
  split; [vm_compute; reflexivity|].
  eexists. split; [vm_compute; reflexivity|].
  repeat split; try (vm_compute; congruence).
Qed.

(** C5, as the specification words it, fails on the remaining quota: for
    a pro-plan account [checkAndIncrement] does not report the marker but
    a number, in the returned object and in the header. *)
Lemma pro_remaining_is_not_the_marker :
  ~ (forall d, fst (checkAndIncrement noon carol boot) = Returned d ->
       allowed d = true
       /\ limit d = unboundedMarker
       /\ remaining d = unboundedMarker
       /\ X_RateLimit_Limit (headers d) = unboundedText
       /\ X_RateLimit_Remaining (headers d) = unboundedText).
Proof.
  intros H.
  destruct (H (mkDecision true 1 (-1) 9998 (Some 1793664000)
                 (mkHeaders "unlimited" "9999" "1793664000")))
    as (_ & _ & Hrem & _); [vm_compute; reflexivity|].
  discriminate Hrem.
Qed.

(** C5, amended. A pro-plan account is let through whatever its counter
    is; the limit is reported with the marker everywhere; the remaining
    quota is the marker in [getUsage], and in [checkAndIncrement] a fixed
    number that does not depend on the counter. *)
Theorem pro_always_allowed (env : LedgerEnv) (u : UserRecord) (s : State) :
  plan u = pro ->
  usage_write_ok env = true ->
  (exists d,
     fst (checkAndIncrement env u s) = Returned d
     /\ allowed d = true
     /\ limit d = unboundedMarker
     /\ X_RateLimit_Limit (headers d) = unboundedText
     /\ remaining d = 9998
     /\ X_RateLimit_Remaining (headers d) = "9999")
  /\ snap_limit (getUsage env u s) = unboundedMarker
  /\ snap_remaining (getUsage env u s) = unboundedMarker.
Proof.
  intros Hpro Hw. split.
  - rewrite checkAndIncrement_run. rewrite Hpro, Hw. cbn [LIMITS below fst].
    eexists. split; [reflexivity|].
    cbn [allowed limit remaining headers X_RateLimit_Limit X_RateLimit_Remaining].
    repeat split.
  - unfold getUsage. rewrite Hpro. cbn [LIMITS snap_limit snap_remaining].
    split; reflexivity.
Qed.

Lemma pro_always_allowed_witness :
  plan carol = pro /\ usage_write_ok noon = true /\
  ((exists d,
      fst (checkAndIncrement noon carol boot) = Returned d
      /\ allowed d = true
      /\ limit d = unboundedMarker
      /\ X_RateLimit_Limit (headers d) = unboundedText
      /\ remaining d = 9998
      /\ X_RateLimit_Remaining (headers d) = "9999")
   /\ snap_limit (getUsage noon carol boot) = unboundedMarker
   /\ snap_remaining (getUsage noon carol boot) = unboundedMarker).
Proof.
  split; [reflexivity|]. split; [reflexivity|].
  apply (pro_always_allowed noon carol boot); reflexivity.
Defined.


Example endOfDayUnix_year_end : endOfDayUnix 1704067199999 = Some 1704067200.
Proof. vm_compute. reflexivity. Qed.

(** 2024-02-28T18:30:00Z is followed by 29 February, 2023-02-28T18:30:00Z
    by 1 March, 2026-04-30T00:00:00Z by 1 May. *)
Example endOfDayUnix_month_ends :
  endOfDayUnix 1709145000000 = Some 1709164800
  /\ endOfDayUnix 1677609000000 = Some 1677628800
  /\ endOfDayUnix 1777507200000 = Some 1777593600.
Proof. vm_compute. repeat split. Qed.

(** C8. For every reading of the clock from the epoch up to the last day
    that a [Date] can hold, the reset time that [checkAndIncrement],
    its header and [getUsage] report is the epoch second of the next UTC
    midnight: a whole number of days, strictly after the reading and at
    most one day after it. The date plus one is carried into the next
    month or year by [Date.UTC]. *)
Theorem resetAt_is_next_utc_midnight (env : LedgerEnv) (u : UserRecord)
    (s : State) :
  0 <= clock_eod env < 8640000000000000 ->
  let midnight := nextUtcMidnight (clock_eod env) in
  endOfDayUnix (clock_eod env) = Some midnight
  /\ resets_at (getUsage env u s) = Some midnight
  /\ match fst (checkAndIncrement env u s) with
     | Returned d =>
         resetAt d = Some midnight
         /\ X_RateLimit_Reset (headers d) = String_of_Z midnight
     | Thrown => usage_write_ok env = false
     end
  /\ (midnight * 1000) mod JSDate.msPerDay = 0
  /\ clock_eod env < midnight * 1000 <= clock_eod env + JSDate.msPerDay.
Proof.
  intros Hnow midnight. subst midnight.
  pose proof (endOfDayUnix_spec _ Hnow) as Heod.
  split; [exact Heod|]. split; [exact Heod|]. split; [|split].
  - rewrite checkAndIncrement_run. rewrite Heod.
    destruct (below _ _); [destruct (usage_write_ok env)|];
      cbn [fst resetAt headers X_RateLimit_Reset String_of_number];
      try reflexivity; split; reflexivity.
  - unfold nextUtcMidnight, JSDate.msPerDay.
    replace ((clock_eod env / 86400000 + 1) * 86400 * 1000)
      with ((clock_eod env / 86400000 + 1) * 86400000) by lia.
    apply Z.mod_mul. lia.
  - apply nextUtcMidnight_bounds.
Qed.

Lemma resetAt_is_next_utc_midnight_witness :
  0 <= clock_eod newYearsEve < 8640000000000000 /\
  (endOfDayUnix (clock_eod newYearsEve) = Some 1704067200
   /\ resets_at (getUsage newYearsEve alice boot) = Some 1704067200).
Proof.
  split; [vm_compute; split; [discriminate | reflexivity]|].
  pose proof (resetAt_is_next_utc_midnight newYearsEve alice boot) as H.
  cbv zeta in H.
  change (nextUtcMidnight (clock_eod newYearsEve)) with 1704067200 in H.
  destruct H as (H1 & H2 & _).
  - vm_compute; split; [discriminate | reflexivity].
  - split; [exact H1 | exact H2].
Defined.

(** Sequential calls of a free-plan account within one UTC day, starting
    from a counter [c]: call number [i] (from 0) is let through exactly
    when [c + i < 10]. *)
Lemma checkAll_free (u : UserRecord) (day : Z) (envs : list LedgerEnv) :
  plan u = free ->
  Forall (fun env => JSDate.Day (clock_today env) = day
                     /\ usage_write_ok env = true) envs ->
  forall (s : State) (c : Z),
    (forall t, JSDate.Day t = day -> counter s (usageKey u t) = c) ->
    forall (i : nat) (env : LedgerEnv), envs !! i = Some env ->
      exists d,
        fst (checkAll envs u s) !! i = Some (Returned d)
        /\ allowed d = (c + Z.of_nat i <? 10)
        /\ remaining d = Z.max 0 (10 - (c + Z.of_nat i + 1))
        /\ X_RateLimit_Remaining (headers d)
           = String_of_Z (Z.max 0 (10 - (c + Z.of_nat i))).
Proof.
  intros Hfree Henvs. induction Henvs as [|e envs [Hday Hw] _ IH];
    intros s c Hc i env Hi; [discriminate Hi|].
  pose proof (Hc _ Hday) as Hc0.
  pose proof (checkAndIncrement_run e u s) as Hrun. cbv zeta in Hrun.
  rewrite Hfree, Hw, Hc0 in Hrun. cbn [LIMITS below] in Hrun.
  destruct i as [|i]; cbn [checkAll fst lookup list_lookup].
  - unfold result. rewrite Hrun.
    destruct (Z.ltb_spec c 10) as [Hlt|Hge]; cbn [fst]; eexists;
      (split; [reflexivity|]);
      cbn [allowed remaining headers X_RateLimit_Remaining];
      rewrite Z.add_0_r.
    + split; [symmetry; apply Z.ltb_lt; lia|]. split; [lia|reflexivity].
    + split; [symmetry; apply Z.ltb_ge; lia|]. split; [lia|reflexivity].
  - cbn [lookup list_lookup] in Hi.
    destruct (IH (after (checkAndIncrement e u s))
                 (if c <? 10 then c + 1 else c)) with (i := i) (env := env)
      as (d & Hd & Ha & Hr & Hh); [|exact Hi|].
    + intros t Ht. rewrite counter_after_check.
      rewrite decide_True by (apply usageKey_Day; congruence).
      rewrite (Hc t Ht), Hfree. reflexivity.
    + exists d. split; [exact Hd|]. rewrite Ha, Hr, Hh.
      destruct (Z.ltb_spec c 10) as [Hlt|Hge].
      * replace (c + 1 + Z.of_nat i) with (c + Z.of_nat (S i)) by lia.
        repeat split.
      * split; [|split].
        -- transitivity false; [apply Z.ltb_ge|symmetry; apply Z.ltb_ge]; lia.
        -- lia.
        -- f_equal. lia.
Qed.

(** C1. A free-plan account, limit 10, calls made one after the other on
    one UTC day on which nothing has been counted yet, every write of the
    usage file succeeding: every call returns; the first ten return
    [allowed = true]; the eleventh, and every later one, returns
    [allowed = false] with [remaining = 0], also in the header. *)
Theorem first_ten_calls_allowed (u : UserRecord) (day : Z)
    (envs : list LedgerEnv) (s : State) :
  plan u = free ->
  Forall (fun env => JSDate.Day (clock_today env) = day
                     /\ usage_write_ok env = true) envs ->
  (forall t, JSDate.Day t = day -> counter s (usageKey u t) = 0) ->
  forall (i : nat), (i < length envs)%nat ->
    exists d,
      fst (checkAll envs u s) !! i = Some (Returned d)
      /\ ((i < 10)%nat -> allowed d = true)
      /\ ((10 <= i)%nat ->
          allowed d = false /\ remaining d = 0
          /\ X_RateLimit_Remaining (headers d) = "0").
Proof.
  intros Hfree Henvs Hzero i Hi.
  destruct (lookup_lt_is_Some_2 envs i Hi) as [env Henv].
  destruct (checkAll_free u day envs Hfree Henvs s 0 Hzero i env Henv)
    as (d & Hd & Ha & Hr & Hh).
  exists d. split; [exact Hd|]. split.
  - intros Hlt. rewrite Ha. apply Z.ltb_lt. lia.
  - intros Hge. split; [rewrite Ha; apply Z.ltb_ge; lia|].
    split; [lia|]. rewrite Hh.
    replace (Z.max 0 (10 - (0 + Z.of_nat i))) with 0 by lia. reflexivity.
Qed.

Example eleven_calls_at_noon :
  fst (checkAll elevenCalls alice boot)
    !! 9%nat = Some (Returned (mkDecision true 10 10 0 (Some 1793664000)
                      (mkHeaders "10" "1" "1793664000")))
  /\ fst (checkAll elevenCalls alice boot)
    !! 10%nat = Some (Returned (mkDecision false 10 10 0 (Some 1793664000)
                      (mkHeaders "10" "0" "1793664000"))).
Proof. vm_compute. split; reflexivity. Qed.

Lemma first_ten_calls_allowed_witness :
  plan alice = free
  /\ Forall (fun env => JSDate.Day (clock_today env) = 20759
                        /\ usage_write_ok env = true) elevenCalls
  /\ (forall t, JSDate.Day t = 20759 -> counter boot (usageKey alice t) = 0)
  /\ (10 < length elevenCalls)%nat
  /\ exists d,
      fst (checkAll elevenCalls alice boot) !! 10%nat = Some (Returned d)
      /\ ((10 < 10)%nat -> allowed d = true)
      /\ ((10 <= 10)%nat ->
          allowed d = false /\ remaining d = 0
          /\ X_RateLimit_Remaining (headers d) = "0").
Proof.
  assert (H1 : plan alice = free) by reflexivity.
  assert (H2 : Forall (fun env => JSDate.Day (clock_today env) = 20759
                                  /\ usage_write_ok env = true) elevenCalls)
    by (repeat constructor).
  assert (H3 : forall t, JSDate.Day t = 20759 ->
                 counter boot (usageKey alice t) = 0)
    by (intros t _; unfold counter; rewrite usedToday_own; reflexivity).
  assert (H4 : (10 < length elevenCalls)%nat) by (vm_compute; lia).
  repeat (split; [assumption|]).
  exact (first_ten_calls_allowed alice 20759 elevenCalls boot H1 H2 H3 10%nat H4).
Defined.

End LedgerClaims.

(** ** Requests of one account in flight at once *)
Section PoolFacts.

Variable u : UserRecord.
Variable day : Z.
Hypothesis u_free : plan u = free.

Lemma countIf_app (p : Request -> bool) (l1 l2 : list Request) :
  countIf p (l1 ++ l2)%list = countIf p l1 + countIf p l2.
Proof.
  induction l1 as [|r l1 IH]; cbn [app countIf]; [lia|]. rewrite IH. lia.
Qed.

Lemma countIf_nonneg (p : Request -> bool) (l : list Request) :
  0 <= countIf p l.
Proof.
  induction l as [|r l IH]; cbn [countIf]; [lia|]. destruct (p r); lia.
Qed.

Lemma countIf_replace (p : Request -> bool) (l1 l2 : list Request)
    (r r' : Request) :
  countIf p (l1 ++ r' :: l2)%list
  = countIf p (l1 ++ r :: l2)%list
    + (if p r' then 1 else 0) - (if p r then 1 else 0).
Proof. rewrite !countIf_app. cbn [countIf]. lia. Qed.

Lemma countIf_arrivals (envs : list LedgerEnv) :
  countIf wasAllowed (map Arrived envs) = 0
  /\ countIf wasDenied (map Arrived envs) = 0
  /\ countIf notHandled (map Arrived envs) = Z.of_nat (length envs).
Proof.
  induction envs as [|e envs (Ha & Hd & Hn)]; cbn [map countIf length];
    [repeat split|].
  cbn [wasAllowed wasDenied notHandled]. lia.
Qed.

Lemma answered_all_handled (pool : list Request) :
  forallb answered pool = true -> countIf notHandled pool = 0.
Proof.
  induction pool as [|r pool IH]; cbn [forallb countIf]; [reflexivity|].
  intros [Hr Hrest]%andb_true_iff. rewrite (IH Hrest).
  destruct r; first [discriminate Hr | reflexivity].
Qed.

(** The middleware is [checkAndIncrement] followed by a test of
    [allowed]. *)
Lemma rateLimitMiddleware_run (env : LedgerEnv) (s : State) :
  rateLimitMiddleware env u s =
    match checkAndIncrement env u s with
    | (Returned d, s') =>
        (Returned (if negb (allowed d) then RateLimitExceeded (headers d)
                   else Next (headers d)), s')
    | (Thrown, s') => (Thrown, s')
    end.
Proof.
  unfold rateLimitMiddleware. run_M.
  destruct (checkAndIncrement env u s) as [[d|] s']; [|reflexivity].
  destruct (allowed d); reflexivity.
Qed.

(** One turn of the middleware for an account whose counter of the day
    stands at [c]. *)
Lemma handle_turn (env : LedgerEnv) (s : State) (c : Z) :
  JSDate.Day (clock_today env) = day ->
  usage_write_ok env = true ->
  (forall t, JSDate.Day t = day -> counter s (usageKey u t) = c) ->
  (exists h,
     handled (result (rateLimitMiddleware env u s))
       = (if c <? 10 then Awaiting h else Rejected h))
  /\ forall t, JSDate.Day t = day ->
       counter (after (rateLimitMiddleware env u s)) (usageKey u t)
       = if c <? 10 then c + 1 else c.
Proof.
  intros Hday Hw Hc. split.
  - rewrite rateLimitMiddleware_run, checkAndIncrement_run.
    rewrite u_free, Hw, (Hc _ Hday). cbn [LIMITS below].
    destruct (c <? 10); cbn [result fst allowed negb headers handled];
      eexists; reflexivity.
  - assert (Hafter : after (rateLimitMiddleware env u s)
                     = after (checkAndIncrement env u s)).
    { rewrite rateLimitMiddleware_run.
      destruct (checkAndIncrement env u s) as [[d|] s']; reflexivity. }
    rewrite Hafter. intros t Ht. rewrite counter_after_check.
    rewrite decide_True by (apply usageKey_Day; congruence).
    rewrite (Hc t Ht), u_free. reflexivity.
Qed.

Lemma turn_preserves (c0 total : Z) (cfg cfg' : State * list Request) :
  poolInvariant u day c0 total cfg ->
  turn u cfg cfg' ->
  poolInvariant u day c0 total cfg'.
Proof.
  intros [Hreq Hcnt Hall Hden Htot] Hturn.
  destruct Hturn as [s env before later | s h before later];
    cbn [fst snd] in *.
  - pose proof Hreq as Hreq'.
    apply Forall_app in Hreq' as [Hbefore Hrest].
    apply Forall_cons in Hrest as [[Hday Hw] Hlater].
    destruct (handle_turn env s _ Hday Hw Hcnt) as [[h Hh] Hcount].
    rewrite Hh.
    pose proof (countIf_nonneg wasAllowed (before ++ Arrived env :: later)).
    pose proof (countIf_nonneg wasDenied (before ++ Arrived env :: later)).
    destruct (Z.ltb_spec
                (c0 + countIf wasAllowed (before ++ Arrived env :: later)) 10)
      as [Hlt|Hge].
    + pose proof (countIf_replace wasAllowed before later
                    (Arrived env) (Awaiting h)) as Ea.
      pose proof (countIf_replace wasDenied before later
                    (Arrived env) (Awaiting h)) as Ed.
      pose proof (countIf_replace notHandled before later
                    (Arrived env) (Awaiting h)) as En.
      cbn [wasAllowed wasDenied notHandled] in Ea, Ed, En.
      split; cbn [fst snd]; rewrite ?Ea, ?Ed, ?En; try lia.
      * apply Forall_app. split; [exact Hbefore|].
        apply Forall_cons. split; [exact I | exact Hlater].
      * intros t Ht. rewrite (Hcount t Ht). lia.
    + pose proof (countIf_replace wasAllowed before later
                    (Arrived env) (Rejected h)) as Ea.
      pose proof (countIf_replace wasDenied before later
                    (Arrived env) (Rejected h)) as Ed.
      pose proof (countIf_replace notHandled before later
                    (Arrived env) (Rejected h)) as En.
      cbn [wasAllowed wasDenied notHandled] in Ea, Ed, En.
      split; cbn [fst snd]; rewrite ?Ea, ?Ed, ?En; try lia.
      * apply Forall_app. split; [exact Hbefore|].
        apply Forall_cons. split; [exact I | exact Hlater].
      * intros t Ht. rewrite (Hcount t Ht). lia.
  - pose proof Hreq as Hreq'.
    apply Forall_app in Hreq' as [Hbefore Hrest].
    apply Forall_cons in Hrest as [_ Hlater].
    pose proof (countIf_replace wasAllowed before later
                  (Awaiting h) (Served h)) as Ea.
    pose proof (countIf_replace wasDenied before later
                  (Awaiting h) (Served h)) as Ed.
    pose proof (countIf_replace notHandled before later
                  (Awaiting h) (Served h)) as En.
    cbn [wasAllowed wasDenied notHandled] in Ea, Ed, En.
    split; cbn [fst snd]; rewrite ?Ea, ?Ed, ?En; try lia.
    + apply Forall_app. split; [exact Hbefore|].
      apply Forall_cons. split; [exact I | exact Hlater].
    + intros t Ht. rewrite (Hcnt t Ht). lia.
Qed.

Lemma arrivals_invariant (envs : list LedgerEnv) (s0 : State) (c0 : Z) :
  Forall (fun env => JSDate.Day (clock_today env) = day
                     /\ usage_write_ok env = true) envs ->
  (forall t, JSDate.Day t = day -> counter s0 (usageKey u t) = c0) ->
  poolInvariant u day c0 (Z.of_nat (length envs)) (s0, map Arrived envs).
Proof.
  intros Henvs Hc0. destruct (countIf_arrivals envs) as (Ha & Hd & Hn).
  split; cbn [fst snd]; rewrite ?Ha, ?Hd, ?Hn; try lia.
  - apply List.Forall_map. exact Henvs.
  - intros t Ht. rewrite (Hc0 t Ht). lia.
Qed.

Lemma reachable_invariant (envs : list LedgerEnv) (s0 : State) (c0 : Z)
    (cfg : State * list Request) :
  Forall (fun env => JSDate.Day (clock_today env) = day
                     /\ usage_write_ok env = true) envs ->
  (forall t, JSDate.Day t = day -> counter s0 (usageKey u t) = c0) ->
  rtc (turn u) (s0, map Arrived envs) cfg ->
  poolInvariant u day c0 (Z.of_nat (length envs)) cfg.
Proof.
  intros Henvs Hc0 Hrun.
  refine (rtc_ind_r (poolInvariant u day c0 (Z.of_nat (length envs)))
            (s0, map Arrived envs) _ _ cfg Hrun).
  - now apply arrivals_invariant.
  - intros y z _ Hturn IH. exact (turn_preserves _ _ _ _ IH Hturn).
Qed.

(** Some schedule brings every request to its answer: handle them in the
    order of arrival and let each wait for the backend right away. *)
Lemma schedule_exists (envs : list LedgerEnv) :
  forall (finished : list Request) (s : State),
    forallb answered finished = true ->
    exists s' pool,
      rtc (turn u) (s, (finished ++ map Arrived envs)%list) (s', pool)
      /\ forallb answered pool = true.
Proof.
  induction envs as [|e envs IH]; intros finished s Hfin.
  - exists s, finished. cbn [map]. rewrite app_nil_r.
    split; [apply rtc_refl | exact Hfin].
  - cbn [map].
    pose proof (turn_handle u s e finished (map Arrived envs)) as Hturn.
    set (s1 := after (rateLimitMiddleware e u s)) in *.
    set (r := handled (result (rateLimitMiddleware e u s))) in *.
    assert (Hr : exists x,
               answered x = true
               /\ rtc (turn u) (s1, (finished ++ r :: map Arrived envs)%list)
                               (s1, (finished ++ x :: map Arrived envs)%list)).
    { subst r. destruct (result (rateLimitMiddleware e u s)) as [[h|h]|];
        cbn [handled].
      - exists (Rejected h). split; [reflexivity | apply rtc_refl].
      - exists (Served h). split; [reflexivity|].
        apply rtc_once, turn_resume.
      - exists Crashed. split; [reflexivity | apply rtc_refl]. }
    destruct Hr as (x & Hx & Hrun).
    destruct (IH (finished ++ [x])%list s1) as (s' & pool & Hrest & Hall).
    { rewrite forallb_app, Hfin. cbn [forallb]. now rewrite Hx. }
    exists s', pool. split; [|exact Hall].
    eapply rtc_l; [exact Hturn|].
    etransitivity; [exact Hrun|].
    rewrite <- app_assoc in Hrest. exact Hrest.
Qed.

(** C9. Requests of one free-plan account that are in flight at once, all
    on one UTC day, every write succeeding; [R] is the quota that is left
    and there are more requests than that. Whatever the order in which
    the event loop gives the requests their turns, at no moment have more
    than [R] of them been let through, and once all are answered exactly
    [R] were let through and all the others were denied. Such complete
    schedules exist. *)
Theorem concurrent_calls_exactly_R_allowed (envs : list LedgerEnv)
    (s0 : State) (c0 : Z) :
  Forall (fun env => JSDate.Day (clock_today env) = day
                     /\ usage_write_ok env = true) envs ->
  (forall t, JSDate.Day t = day -> counter s0 (usageKey u t) = c0) ->
  let R := Z.max 0 (10 - c0) in
  let N := Z.of_nat (length envs) in
  R < N ->
  (forall s pool,
     rtc (turn u) (s0, map Arrived envs) (s, pool) ->
     countIf wasAllowed pool <= R
     /\ (forallb answered pool = true ->
         countIf wasAllowed pool = R /\ countIf wasDenied pool = N - R))
  /\ exists s pool,
       rtc (turn u) (s0, map Arrived envs) (s, pool)
       /\ forallb answered pool = true.
Proof.
  intros Henvs Hc0 R N HRN. split.
  - intros s pool Hrun.
    destruct (reachable_invariant envs s0 c0 _ Henvs Hc0 Hrun)
      as [_ _ Hall Hden Htot]. cbn [fst snd] in *.
    pose proof (countIf_nonneg wasAllowed pool).
    pose proof (countIf_nonneg wasDenied pool).
    split; [subst R; lia|].
    intros Hdone. rewrite (answered_all_handled pool Hdone) in Htot.
    subst R N. lia.
  - exact (schedule_exists envs [] s0 eq_refl).
Qed.

End PoolFacts.

(** ** The identity registry *)
Section RegistryFacts.

Lemma generateApiKey_cons (bytes : list Byte.byte) :
  generateApiKey bytes = String "m" (String "p" (String "_" (hex bytes))).
Proof. reflexivity. Qed.

Lemma hex_no_at (bytes : list Byte.byte) : includes (hex bytes) "@" = false.
Proof.
  induction bytes as [|b bytes IH]; [reflexivity|].
  cbn [hex includes]. now rewrite !hex_digit_not_at, IH.
Qed.

(** A generated credential is not empty, holds no at sign and is not the
    name of a member of [Object.prototype]. *)
Lemma generateApiKey_truthy (bytes : list Byte.byte) :
  String.eqb (generateApiKey bytes) "" = false.
Proof. reflexivity. Qed.

Lemma generateApiKey_no_at (bytes : list Byte.byte) :
  includes (generateApiKey bytes) "@" = false.
Proof.
  rewrite generateApiKey_cons. cbn [includes].
  rewrite hex_no_at. reflexivity.
Qed.

Lemma generateApiKey_not_inherited (bytes : list Byte.byte) :
  inherits (generateApiKey bytes) = false.
Proof.
  unfold inherits. apply bool_decide_eq_false. intros Hin.
  rewrite generateApiKey_cons in Hin. unfold Object_prototype_names in Hin.
  repeat (apply elem_of_cons in Hin as [Heq|Hin]; [discriminate Heq|]).
  inversion Hin.
Qed.

Lemma email_not_proto (email : string) :
  includes email "@" = true -> String.eqb email "__proto__" = false.
Proof.
  intros Hat. apply String.eqb_neq. intros ->. discriminate Hat.
Qed.

Lemma set_string_email (m : gmap string string) (email k : string) :
  includes email "@" = true -> set_string m email k = <[email := k]> m.
Proof.
  intros Hat. unfold set_string. rewrite (email_not_proto email Hat).
  now destruct (m !! email).
Qed.

Lemma get_insert_eq {V : Type} (m : gmap string V) (k : string) (v : V) :
  get (<[k := v]> m) k = Own v.
Proof. unfold get. now rewrite lookup_insert_eq. Qed.

(** What a call of [registerUser] does, by cases on the two lookups and
    on the outcome of the write. *)
Lemma registerUser_run (env : RegisterEnv) (email : string) (s : State) :
  let existing := get (byEmail (users s)) email in
  let found :=
    if truthy_string existing then get (byKey (users s)) (to_key existing)
    else Undefined in
  let k := generateApiKey (randomBytes env) in
  let account := mkUser (uuidv4 env) email free (JSDate.toISOString (now env)) in
  let us := mkUsers (<[k := account]> (byKey (users s)))
                    (set_string (byEmail (users s)) email k) in
  registerUser env email s =
    if truthy_string existing && truthy_object found
    then (Returned (mkRegistration existing found), s)
    else if write_ok env
    then (Returned (mkRegistration (Own k) (Own account)),
          mkState us (usage s) (Some us) (USAGE_FILE s))
    else (Thrown, mkState us (usage s) (write_leaves env) (USAGE_FILE s)).
Proof.
  intros existing found k account us. subst existing found k account us.
  unfold registerUser. run_M.
  destruct (truthy_string _ && truthy_object _); [reflexivity|].
  destruct (write_ok env); reflexivity.
Qed.

Lemma register_run (env : RegisterEnv) (email : string) (s : State) :
  register env email s =
    if String.eqb email "" || negb (includes email "@")
    then (Returned InvalidRequest, s)
    else match registerUser env email s with
         | (Returned r, s') => (Returned (Registered r), s')
         | (Thrown, s') => (Thrown, s')
         end.
Proof.
  unfold register. destruct (_ || _); [reflexivity|]. run_M.
  destruct (registerUser env email s) as [[r|] s']; reflexivity.
Qed.

(** The lookups of a second registration with the same address, once the
    first one has stored its credential and its account. *)
Lemma registerUser_again (env : RegisterEnv) (email k : string)
    (account : UserRecord) (us : Users) (s : State) :
  includes email "@" = true ->
  String.eqb k "" = false ->
  users s = mkUsers (<[k := account]> (byKey us))
                    (set_string (byEmail us) email k) ->
  registerUser env email s
  = (Returned (mkRegistration (Own k) (Own account)), s).
Proof.
  intros Hat Hk Hus. rewrite registerUser_run. rewrite Hus.
  cbn [byKey byEmail]. rewrite (set_string_email _ _ _ Hat).
  rewrite get_insert_eq. cbn [truthy_string to_key]. rewrite Hk.
  cbn [negb]. rewrite get_insert_eq. reflexivity.
Qed.

(** C2. [register] is idempotent on the address: whenever a call returns,
    a second call with the same address, whatever it draws from its
    environment, returns the same result (the same credential and the
    same account, or the same rejection) and leaves the whole state, both
    mappings and the file, as the first call left it. A first call whose
    write succeeds does return (lemma [register_returns]). *)
Theorem register_idempotent (env1 env2 : RegisterEnv) (email : string)
    (s s1 : State) (r1 : RegisterResult) :
  register env1 email s = (Returned r1, s1) ->
  register env2 email s1 = (Returned r1, s1).
Proof.
  intros Hfirst.
  assert (Hres : fst (register env1 email s) = Returned r1)
    by (now rewrite Hfirst).
  assert (Hst : snd (register env1 email s) = s1) by (now rewrite Hfirst).
  clear Hfirst. rewrite register_run in Hres, Hst. rewrite register_run.
  destruct (String.eqb email "" || negb (includes email "@")) eqn:Hvalid.
  - cbn [fst snd] in Hres, Hst. subst s1. exact (f_equal (fun o => (o, s)) Hres).
  - apply orb_false_iff in Hvalid as [_ Hat]. apply negb_false_iff in Hat.
    rewrite registerUser_run in Hres, Hst.
    destruct (truthy_string (get (byEmail (users s)) email)
              && truthy_object
                   (if truthy_string (get (byEmail (users s)) email)
                    then get (byKey (users s))
                           (to_key (get (byEmail (users s)) email))
                    else Undefined)) eqn:Hknown.
    + cbn [fst snd] in Hres, Hst. subst s1.
      rewrite registerUser_run, Hknown.
      exact (f_equal (fun o => (o, s)) Hres).
    + destruct (write_ok env1); cbn [fst snd] in Hres, Hst;
        [|discriminate Hres].
      rewrite (registerUser_again env2 email
                 (generateApiKey (randomBytes env1))
                 (mkUser (uuidv4 env1) email free
                    (JSDate.toISOString (now env1)))
                 (users s) s1 Hat (generateApiKey_truthy _));
        [|now subst s1].
      exact (f_equal (fun o => (o, s1)) Hres).
Qed.

(** A call of [register] returns unless the write fails. *)
Lemma register_returns (env : RegisterEnv) (email : string) (s : State) :
  write_ok env = true ->
  exists r s', register env email s = (Returned r, s').
Proof.
  intros Hw. rewrite register_run. destruct (_ || _); [eauto|].
  rewrite registerUser_run, Hw. destruct (_ && _); eauto.
Qed.

Example register_twice :
  register signup "alice@example.com" boot
  = (Returned aliceRegistration, afterSignup)
  /\ register signupAgain "alice@example.com" afterSignup
    = (Returned aliceRegistration, afterSignup)
  /\ size (byKey (users afterSignup)) = 1%nat.
Proof. repeat split; vm_compute; reflexivity. Qed.

Lemma register_idempotent_witness :
  register signup "alice@example.com" boot
  = (Returned aliceRegistration, afterSignup)
  /\ register signupAgain "alice@example.com" afterSignup
    = (Returned aliceRegistration, afterSignup).
Proof.
  assert (H : register signup "alice@example.com" boot
              = (Returned aliceRegistration, afterSignup))
    by (vm_compute; reflexivity).
  split; [exact H|].
  exact (register_idempotent signup signupAgain "alice@example.com" boot
           afterSignup aliceRegistration H).
Defined.

(** Called directly, without the check of the route, [registerUser] is
    not idempotent on the address [__proto__]: the assignment
    [users.byEmail[email] = apiKey] is swallowed by the setter, and the
    second call creates a second account. *)
Remark registerUser_proto_twice :
  let first := registerUser signup "__proto__" boot in
  let second := registerUser signupAgain "__proto__" (after first) in
  apiKey <$> (match result first with Returned r => Some r | Thrown => None end)
  = Some (Own (generateApiKey (randomBytes signup)))
  /\ apiKey <$> (match result second with Returned r => Some r | Thrown => None end)
    = Some (Own (generateApiKey (randomBytes signupAgain)))
  /\ size (byKey (users (after second))) = 2%nat
  /\ fst (register signup "__proto__" boot) = Returned InvalidRequest.
Proof. repeat split; vm_compute; reflexivity. Qed.

(** C6, as the specification words it, fails: when the write of the users
    file fails, [register] throws, yet both mappings already hold the new
    registration and keep it. *)
Lemma failed_write_keeps_registration :
  ~ (fst (register signupDiskFull "alice@example.com" boot) = Thrown ->
     users (snd (register signupDiskFull "alice@example.com" boot))
     = users boot).
Proof.
  intros H.
  assert (Hthrown : fst (register signupDiskFull "alice@example.com" boot)
                    = Thrown) by (vm_compute; reflexivity).
  apply H in Hthrown.
  apply (f_equal (fun us => size (byEmail us))) in Hthrown.
  vm_compute in Hthrown. discriminate Hthrown.
Qed.

Example failed_write_then_retry :
  let failed := register signupDiskFull "alice@example.com" boot in
  result failed = Thrown
  /\ users (after failed) = users afterSignup
  /\ register signupAgain "alice@example.com" (after failed)
     = (Returned aliceRegistration, after failed).
Proof. repeat split; vm_compute; reflexivity. Qed.

(** C6, amended. A call of [register] never touches one of the two
    mappings without the other. Either it changes nothing at all (the
    address is rejected, or it already has an account), or it adds the
    new credential to both mappings; in that case a successful write
    makes the file hold both mappings, while a failed write makes the
    call throw with both mappings still updated, whatever the failed
    write has left in the file. *)
Theorem register_updates_both_mappings_or_none (env : RegisterEnv)
    (email : string) (s : State) :
  let s' := snd (register env email s) in
  (s' = s /\ fst (register env email s) <> Thrown)
  \/ (exists k account,
        k = generateApiKey (randomBytes env)
        /\ byKey (users s') = <[k := account]> (byKey (users s))
        /\ byEmail (users s') = <[email := k]> (byEmail (users s))
        /\ usage s' = usage s
        /\ USAGE_FILE s' = USAGE_FILE s
        /\ if write_ok env
           then fst (register env email s)
                = Returned (Registered (mkRegistration (Own k) (Own account)))
                /\ USERS_FILE s' = Some (users s')
           else fst (register env email s) = Thrown).
Proof.
  intros s'. subst s'. rewrite register_run.
  destruct (String.eqb email "" || negb (includes email "@")) eqn:Hvalid.
  - left. split; [reflexivity | discriminate].
  - apply orb_false_iff in Hvalid as [_ Hat]. apply negb_false_iff in Hat.
    rewrite registerUser_run. destruct (_ && _).
    + left. split; [reflexivity | discriminate].
    + right. rewrite (set_string_email _ _ _ Hat).
      do 2 eexists. split; [reflexivity|].
      destruct (write_ok env);
        cbn [fst snd users byKey byEmail usage USERS_FILE USAGE_FILE];
        repeat split.
Qed.

(** *** Resolution of credentials *)

Lemma get_not_inherited {V : Type} (m : gmap string V) (k : string) :
  inherits k = false ->
  get m k = match m !! k with Some v => Own v | None => Undefined end.
Proof. intros Hk. unfold get. now rewrite Hk. Qed.

Lemma credentialsGenerated_boot : credentialsGenerated (users boot).
Proof. intros e k H. cbn in H. rewrite lookup_empty in H. discriminate H. Qed.

Lemma credentialsGenerated_register (env : RegisterEnv) (email : string)
    (s : State) :
  credentialsGenerated (users s) ->
  credentialsGenerated (users (snd (register env email s))).
Proof.
  intros Hgen. rewrite register_run.
  destruct (String.eqb email "" || negb (includes email "@")) eqn:Hvalid;
    [exact Hgen|].
  apply orb_false_iff in Hvalid as [_ Hat]. apply negb_false_iff in Hat.
  rewrite registerUser_run. destruct (_ && _); [exact Hgen|].
  rewrite (set_string_email _ _ _ Hat).
  assert (Hnew : credentialsGenerated
            (mkUsers (<[generateApiKey (randomBytes env) :=
                          mkUser (uuidv4 env) email free
                            (JSDate.toISOString (now env))]> (byKey (users s)))
                     (<[email := generateApiKey (randomBytes env)]>
                        (byEmail (users s))))).
  { intros e k. cbn [byEmail]. destruct (decide (e = email)) as [->|Hne].
    - rewrite lookup_insert_eq. intros [= <-]. eauto.
    - rewrite lookup_insert_ne by congruence. apply Hgen. }
  destruct (write_ok env); exact Hnew.
Qed.

(** For every account that [register] hands out, in a registry whose
    stored credentials were all generated, [validateApiKey] maps the
    credential and the address to that account. *)
Lemma register_then_resolve (env : RegisterEnv) (email : string)
    (s s1 : State) (r : Registration) :
  credentialsGenerated (users s) ->
  register env email s = (Returned (Registered r), s1) ->
  exists k account,
    apiKey r = Own k /\ user r = Own account
    /\ validateApiKey k s1 = Own account
    /\ validateApiKey email s1 = Own account.
Proof.
  intros Hgen Hreg.
  assert (Hres : fst (register env email s) = Returned (Registered r))
    by (now rewrite Hreg).
  assert (Hst : snd (register env email s) = s1) by (now rewrite Hreg).
  clear Hreg. rewrite register_run in Hres, Hst.
  destruct (String.eqb email "" || negb (includes email "@")) eqn:Hvalid;
    [discriminate Hres|].
  apply orb_false_iff in Hvalid as [_ Hat]. apply negb_false_iff in Hat.
  rewrite registerUser_run in Hres, Hst.
  rewrite (get_not_inherited _ email (inherits_no_at _ Hat)) in Hres, Hst.
  destruct (byEmail (users s) !! email) as [k0|] eqn:Hemail.
  - destruct (Hgen _ _ Hemail) as [bytes ->].
    cbn [truthy_string to_key] in Hres, Hst.
    rewrite generateApiKey_truthy in Hres, Hst. cbn [negb andb] in Hres, Hst.
    rewrite (get_not_inherited _ _ (generateApiKey_not_inherited bytes))
      in Hres, Hst.
    destruct (byKey (users s) !! generateApiKey bytes) as [a|] eqn:Hkey.
    + cbn [truthy_object fst snd] in Hres, Hst. subst s1.
      apply Returned_inj in Hres. injection Hres as <-.
      exists (generateApiKey bytes), a. cbn [apiKey user].
      split; [reflexivity|]. split; [reflexivity|].
      unfold validateApiKey. rewrite generateApiKey_no_at, Hat.
      rewrite (get_not_inherited _ email (inherits_no_at _ Hat)), Hemail.
      cbn [truthy_string to_key]. rewrite generateApiKey_truthy. cbn [negb].
      rewrite (get_not_inherited _ _ (generateApiKey_not_inherited bytes)), Hkey.
      split; reflexivity.
    + cbn [truthy_object] in Hres, Hst.
      destruct (write_ok env); cbn [fst snd] in Hres, Hst; [|discriminate Hres].
      subst s1. apply Returned_inj in Hres. injection Hres as <-.
      do 2 eexists. cbn [apiKey user]. split; [reflexivity|].
      split; [reflexivity|].
      unfold validateApiKey. rewrite generateApiKey_no_at, Hat.
      cbn [users byKey byEmail]. rewrite (set_string_email _ _ _ Hat).
      rewrite !get_insert_eq. cbn [truthy_string to_key].
      rewrite ?generateApiKey_truthy. cbn [negb]. rewrite ?get_insert_eq.
      split; reflexivity.
  - cbn [truthy_string andb] in Hres, Hst.
    destruct (write_ok env); cbn [fst snd] in Hres, Hst; [|discriminate Hres].
    subst s1. apply Returned_inj in Hres. injection Hres as <-.
    do 2 eexists. cbn [apiKey user]. split; [reflexivity|].
    split; [reflexivity|].
    unfold validateApiKey. rewrite generateApiKey_no_at, Hat.
    cbn [users byKey byEmail]. rewrite (set_string_email _ _ _ Hat).
    rewrite !get_insert_eq. cbn [truthy_string to_key].
    rewrite ?generateApiKey_truthy. cbn [negb]. rewrite ?get_insert_eq.
    split; reflexivity.
Qed.

(** A string that is neither a stored credential nor a stored address,
    and that is not the name of a member of [Object.prototype], resolves
    to [null]. *)
Lemma validateApiKey_miss (key : string) (s : State) :
  byKey (users s) !! key = None ->
  byEmail (users s) !! key = None ->
  inherits key = false ->
  validateApiKey key s = Null.
Proof.
  intros Hkey Hemail Hproto. unfold validateApiKey.
  rewrite !(get_not_inherited _ key Hproto), Hkey, Hemail.
  now destruct (includes key "@").
Qed.

(** The name of a member of [Object.prototype] resolves to that member
    unless the registry has a credential of that very name. *)
Lemma validateApiKey_inherited (key : string) (s : State) :
  byKey (users s) !! key = None ->
  inherits key = true ->
  validateApiKey key s = Inherited key.
Proof.
  intros Hkey Hproto. unfold validateApiKey.
  destruct (includes key "@") eqn:Hat.
  - rewrite (inherits_no_at key Hat) in Hproto. discriminate Hproto.
  - unfold get. now rewrite Hkey, Hproto.
Qed.

(** C3. On the empty registry the string ["constructor"] is neither a
    credential nor an address, yet [validateApiKey] does not answer
    [null]: it returns [Object.prototype.constructor], a truthy value, and
    [authMiddleware] lets the request through with it as [req.user]. The
    same registry resolves the credential and the address of a registered
    account to that account, and any string outside [Object.prototype] to
    [null]. *)
Theorem validateApiKey_constructor_not_null :
  byKey (users boot) !! "constructor" = None
  /\ byEmail (users boot) !! "constructor" = None
  /\ validateApiKey "constructor" boot = Inherited "constructor"
  /\ validateApiKey "constructor" boot <> Null
  /\ authMiddleware (Some "constructor") boot
     = Authenticated (Inherited "constructor")
  /\ validateApiKey "toString" afterSignup = Inherited "toString"
  /\ validateApiKey aliceKey afterSignup = Own alice
  /\ validateApiKey "alice@example.com" afterSignup = Own alice
  /\ validateApiKey "nobody@example.com" afterSignup = Null
  /\ validateApiKey "mp_0000" afterSignup = Null.
Proof.
  split; [reflexivity|]. split; [reflexivity|].
  split; [vm_compute; reflexivity|].
  split; [vm_compute; discriminate|].
  repeat split; vm_compute; reflexivity.
Qed.

Lemma register_then_resolve_witness :
  credentialsGenerated (users boot)
  /\ exists k account,
       validateApiKey k afterSignup = Own account
       /\ validateApiKey "alice@example.com" afterSignup = Own account.
Proof.
  split; [exact credentialsGenerated_boot|].
  destruct (register_then_resolve signup "alice@example.com" boot afterSignup
              {| apiKey := Own aliceKey; user := Own alice |}
              credentialsGenerated_boot)
    as (k & account & _ & _ & Hk & He); [vm_compute; reflexivity|].
  exists k, account. split; assumption.
Defined.

End RegistryFacts.

(** ** The sample pool *)

Lemma concurrent_calls_exactly_R_allowed_witness :
  plan alice = free
  /\ Forall (fun env => JSDate.Day (clock_today env) = 20759
                        /\ usage_write_ok env = true) elevenCalls
  /\ (forall t, JSDate.Day t = 20759 -> counter boot (usageKey alice t) = 0)
  /\ Z.max 0 (10 - 0) < Z.of_nat (length elevenCalls)
  /\ ((forall s pool,
         rtc (turn alice) (boot, map Arrived elevenCalls) (s, pool) ->
         countIf wasAllowed pool <= Z.max 0 (10 - 0)
         /\ (forallb answered pool = true ->
             countIf wasAllowed pool = Z.max 0 (10 - 0)
             /\ countIf wasDenied pool
                = Z.of_nat (length elevenCalls) - Z.max 0 (10 - 0)))
      /\ exists s pool,
           rtc (turn alice) (boot, map Arrived elevenCalls) (s, pool)
           /\ forallb answered pool = true).
Proof.
  assert (H1 : plan alice = free) by reflexivity.
  assert (H2 : Forall (fun env => JSDate.Day (clock_today env) = 20759
                                  /\ usage_write_ok env = true) elevenCalls)
    by (repeat constructor).
  assert (H3 : forall t, JSDate.Day t = 20759 ->
                 counter boot (usageKey alice t) = 0)
    by (intros t _; unfold counter; rewrite usedToday_own; reflexivity).
  assert (H4 : Z.max 0 (10 - 0) < Z.of_nat (length elevenCalls))
    by (vm_compute; reflexivity).
  repeat (split; [assumption|]).
  exact (concurrent_calls_exactly_R_allowed alice 20759 H1 elevenCalls boot 0
           H2 H3 H4).
Defined.

(** * Further properties of the code *)

(** ** Credentials *)
Section CredentialFacts.

Lemma hex_digit_value (n : N) : (n < 16)%N -> hex_value (hex_digit n) = n.
Proof.
  intros Hn. destruct n as [|p]; [reflexivity|].
  do 4 (try (destruct p as [p|p|]; try reflexivity)); exfalso; lia.
Qed.

Lemma hex_digit_is_hex (n : N) : is_hex_digit (hex_digit n) = true.
Proof.
  destruct n as [|p]; [reflexivity|].
  do 5 (try (destruct p as [p|p|]; try reflexivity)).
Qed.

Lemma byte_to_N_bound (b : Byte.byte) : (Byte.to_N b < 256)%N.
Proof. destruct b; reflexivity. Qed.

(** [hex] can be decoded: the bytes are all in the credential. *)
Lemma unhex_hex (bytes : list Byte.byte) : unhex (hex bytes) = bytes.
Proof.
  induction bytes as [|b bytes IH]; [reflexivity|].
  cbn [hex unhex]. pose proof (byte_to_N_bound b) as Hb.
  rewrite !hex_digit_value
    by (try apply N.mod_lt; try apply N.Div0.div_lt_upper_bound; lia).
  replace (Byte.to_N b / 16 * 16 + Byte.to_N b mod 16)%N with (Byte.to_N b)
    by (rewrite (N.div_mod (Byte.to_N b) 16) at 1; lia).
  rewrite Byte.of_to_N. now rewrite IH.
Qed.

Lemma length_hex (bytes : list Byte.byte) :
  String.length (hex bytes) = (2 * length bytes)%nat.
Proof.
  induction bytes as [|b bytes IH]; [reflexivity|].
  cbn [hex String.length length]. rewrite IH. lia.
Qed.

Lemma hex_all_hex (bytes : list Byte.byte) :
  all_chars is_hex_digit (hex bytes) = true.
Proof.
  induction bytes as [|b bytes IH]; [reflexivity|].
  cbn [hex all_chars]. now rewrite !hex_digit_is_hex, IH.
Qed.

(** X1. Two draws of random bytes that differ give two credentials that
    differ: [generateApiKey] is injective. *)
Theorem generateApiKey_injective (bytes1 bytes2 : list Byte.byte) :
  bytes1 <> bytes2 -> generateApiKey bytes1 <> generateApiKey bytes2.
Proof.
  intros Hne Heq. apply Hne.
  rewrite !generateApiKey_cons in Heq. injection Heq as Heq.
  rewrite <- (unhex_hex bytes1), <- (unhex_hex bytes2). now rewrite Heq.
Qed.

Lemma generateApiKey_injective_witness :
  randomBytes signup <> randomBytes signupAgain
  /\ generateApiKey (randomBytes signup)
     <> generateApiKey (randomBytes signupAgain).
Proof.
  assert (H : randomBytes signup <> randomBytes signupAgain)
    by (vm_compute; discriminate).
  split; [exact H|].
  exact (generateApiKey_injective _ _ H).
Defined.

(** X2. The shape of a credential: the prefix [mp_] followed by two
    lower-case hexadecimal digits per random byte and nothing else, 67
    characters for the 32 bytes that the code draws. It is therefore never
    empty, never holds an at sign (so [validateApiKey] looks it up as a
    credential, not as an address) and is never the name of a member of
    [Object.prototype]. *)
Theorem generateApiKey_shape (bytes : list Byte.byte) :
  generateApiKey bytes = "mp_" ++ hex bytes
  /\ all_chars is_hex_digit (hex bytes) = true
  /\ String.length (generateApiKey bytes) = (3 + 2 * length bytes)%nat
  /\ (length bytes = 32%nat -> String.length (generateApiKey bytes) = 67%nat)
  /\ generateApiKey bytes <> ""
  /\ includes (generateApiKey bytes) "@" = false
  /\ inherits (generateApiKey bytes) = false.
Proof.
  split; [reflexivity|]. split; [apply hex_all_hex|].
  assert (Hlen : String.length (generateApiKey bytes)
                 = (3 + 2 * length bytes)%nat).
  { rewrite generateApiKey_cons. cbn [String.length]. rewrite length_hex. lia. }
  split; [exact Hlen|]. split; [intros H; rewrite Hlen, H; reflexivity|].
  split; [rewrite generateApiKey_cons; discriminate|].
  split; [apply generateApiKey_no_at | apply generateApiKey_not_inherited].
Qed.

End CredentialFacts.

(** ** The registry over time *)
Section RegistryInvariant.

(** The two ways in which [register] leaves the registry: as it was, or
    with one credential added to both mappings. *)
Lemma register_users (env : RegisterEnv) (email : string) (s : State) :
  users (after (register env email s)) = users s
  \/ (includes email "@" = true
      /\ users (after (register env email s))
         = mkUsers
             (<[generateApiKey (randomBytes env) :=
                  mkUser (uuidv4 env) email free
                    (JSDate.toISOString (now env))]> (byKey (users s)))
             (<[email := generateApiKey (randomBytes env)]>
                (byEmail (users s)))).
Proof.
  unfold after. rewrite register_run.
  destruct (String.eqb email "" || negb (includes email "@")) eqn:Hvalid;
    [left; reflexivity|].
  apply orb_false_iff in Hvalid as [_ Hat]. apply negb_false_iff in Hat.
  rewrite registerUser_run. destruct (_ && _); [left; reflexivity|].
  right. split; [exact Hat|]. rewrite (set_string_email _ _ _ Hat).
  destruct (write_ok env); reflexivity.
Qed.

Lemma checkAndIncrement_users (env : LedgerEnv) (u : UserRecord) (s : State) :
  users (after (checkAndIncrement env u s)) = users s.
Proof.
  unfold after. rewrite checkAndIncrement_run.
  destruct (below _ _); [destruct (usage_write_ok env)|]; reflexivity.
Qed.

Lemma registryConsistent_boot : registryConsistent (users boot).
Proof. intros e k H. cbn in H. rewrite lookup_empty in H. discriminate H. Qed.

Lemma registryConsistent_register (env : RegisterEnv) (email : string)
    (s : State) :
  registryConsistent (users s) ->
  byKey (users s) !! generateApiKey (randomBytes env) = None ->
  registryConsistent (users (after (register env email s))).
Proof.
  intros Hinv Hfresh.
  destruct (register_users env email s) as [->|[Hat ->]]; [exact Hinv|].
  intros e k. cbn [byEmail byKey].
  destruct (decide (e = email)) as [->|Hne].
  - rewrite lookup_insert_eq. intros [= <-].
    split; [eauto|]. split; [exact Hat|].
    eexists. rewrite lookup_insert_eq. repeat split.
  - rewrite lookup_insert_ne by congruence. intros He.
    destruct (Hinv e k He) as (Hgen & Hate & a & Ha & Hea & Hpa).
    split; [exact Hgen|]. split; [exact Hate|]. exists a.
    rewrite lookup_insert_ne by (intros <-; congruence). auto.
Qed.

Lemma runCall_users_consistent (c : Call) (s : State) :
  registryConsistent (users s) -> drawsFreshKey c s ->
  registryConsistent (users (runCall c s)).
Proof.
  intros Hinv Hfresh. destruct c as [env email|env u|env u]; cbn [runCall].
  - now apply registryConsistent_register.
  - now rewrite checkAndIncrement_users.
  - exact Hinv.
Qed.

(** X3. In every state that calls reach from the start, as long as no two
    registrations draw the same credential, every registered address
    leads to a generated credential and that credential to a free-plan
    account that carries this very address. *)
Theorem reachable_registry_consistent (s : State) :
  reachable s -> registryConsistent (users s).
Proof.
  induction 1 as [|c s _ IH Hfresh].
  - exact registryConsistent_boot.
  - exact (runCall_users_consistent c s IH Hfresh).
Qed.

Lemma reachable_afterSignup : reachable afterSignup.
Proof.
  exact (reachable_call (CallRegister signup "alice@example.com") boot
           reachable_boot eq_refl).
Qed.

Lemma reachable_registry_consistent_witness :
  reachable afterSignup /\ registryConsistent (users afterSignup).
Proof.
  split; [exact reachable_afterSignup|].
  exact (reachable_registry_consistent afterSignup reachable_afterSignup).
Defined.

(** In a consistent registry the credential and the address of an account
    resolve to it. *)
Lemma consistent_resolve (s : State) (e k : string) :
  registryConsistent (users s) ->
  byEmail (users s) !! e = Some k ->
  exists a, byKey (users s) !! k = Some a /\ email a = e /\ plan a = free
            /\ validateApiKey k s = Own a /\ validateApiKey e s = Own a.
Proof.
  intros Hinv He. destruct (Hinv e k He) as ([bytes ->] & Hat & a & Ha & Hea & Hpa).
  exists a. repeat (split; [assumption|]).
  unfold validateApiKey. rewrite generateApiKey_no_at, Hat.
  rewrite (get_not_inherited _ e (inherits_no_at _ Hat)), He.
  cbn [truthy_string to_key]. rewrite generateApiKey_truthy. cbn [negb].
  rewrite (get_not_inherited _ _ (generateApiKey_not_inherited bytes)), Ha.
  split; reflexivity.
Qed.

Lemma consistent_afterSignup : registryConsistent (users afterSignup).
Proof.
  exact (registryConsistent_register signup "alice@example.com" boot
           registryConsistent_boot eq_refl).
Qed.

(** X4. In a consistent registry credentials and addresses are one to
    one: two addresses never share a credential, and for every registered
    address [validateApiKey] gives the same account, the one that carries
    the address, whether it is handed the address or its credential. *)
Theorem consistent_credentials_one_to_one (s : State) :
  registryConsistent (users s) ->
  (forall e1 e2 k,
     byEmail (users s) !! e1 = Some k -> byEmail (users s) !! e2 = Some k ->
     e1 = e2)
  /\ (forall e k,
        byEmail (users s) !! e = Some k ->
        exists a, email a = e
                  /\ validateApiKey k s = Own a /\ validateApiKey e s = Own a).
Proof.
  intros Hinv. split.
  - intros e1 e2 k H1 H2.
    destruct (Hinv e1 k H1) as (_ & _ & a1 & Ha1 & He1 & _).
    destruct (Hinv e2 k H2) as (_ & _ & a2 & Ha2 & He2 & _).
    congruence.
  - intros e k He.
    destruct (consistent_resolve s e k Hinv He) as (a & _ & Hea & _ & Hk & Hem).
    eauto.
Qed.

Lemma consistent_credentials_one_to_one_witness :
  registryConsistent (users afterSignup)
  /\ exists a, email a = "alice@example.com"
               /\ validateApiKey aliceKey afterSignup = Own a
               /\ validateApiKey "alice@example.com" afterSignup = Own a.
Proof.
  split; [exact consistent_afterSignup|].
  destruct (consistent_credentials_one_to_one afterSignup consistent_afterSignup)
    as [_ H].
  exact (H "alice@example.com" aliceKey eq_refl).
Defined.

(** X5. From a consistent registry, a call of [register] that hands out
    an account hands out one that carries the given address and is on the
    free plan, together with its credential, and both mappings of the
    state it leaves hold them. *)
Theorem register_returns_account_of_email (env : RegisterEnv)
    (address : string) (s s1 : State) (r : Registration) :
  registryConsistent (users s) ->
  register env address s = (Returned (Registered r), s1) ->
  exists k a,
    r = mkRegistration (Own k) (Own a)
    /\ email a = address
    /\ plan a = free
    /\ byEmail (users s1) !! address = Some k
    /\ byKey (users s1) !! k = Some a.
Proof.
  intros Hinv Hreg.
  assert (Hres : fst (register env address s) = Returned (Registered r))
    by (now rewrite Hreg).
  assert (Hst : snd (register env address s) = s1) by (now rewrite Hreg).
  clear Hreg. rewrite register_run in Hres, Hst.
  destruct (String.eqb address "" || negb (includes address "@")) eqn:Hvalid;
    [discriminate Hres|].
  apply orb_false_iff in Hvalid as [_ Hat]. apply negb_false_iff in Hat.
  rewrite registerUser_run in Hres, Hst.
  rewrite (get_not_inherited _ address (inherits_no_at _ Hat)) in Hres, Hst.
  destruct (byEmail (users s) !! address) as [k0|] eqn:Hemail.
  - destruct (Hinv _ _ Hemail) as ([bytes ->] & _ & a & Ha & Hea & Hpa).
    cbn [truthy_string to_key] in Hres, Hst.
    rewrite generateApiKey_truthy in Hres, Hst. cbn [negb andb] in Hres, Hst.
    rewrite (get_not_inherited _ _ (generateApiKey_not_inherited bytes)), Ha
      in Hres, Hst.
    cbn [truthy_object fst snd] in Hres, Hst. subst s1.
    apply Returned_inj in Hres. injection Hres as <-.
    exists (generateApiKey bytes), a. auto.
  - cbn [truthy_string andb] in Hres, Hst.
    destruct (write_ok env); cbn [fst snd] in Hres, Hst; [|discriminate Hres].
    subst s1. apply Returned_inj in Hres. injection Hres as <-.
    do 2 eexists. split; [reflexivity|]. cbn [users byKey byEmail].
    rewrite (set_string_email _ _ _ Hat), !lookup_insert_eq. auto.
Qed.

Lemma register_returns_account_of_email_witness :
  registryConsistent (users afterSignup)
  /\ register signupAgain "alice@example.com" afterSignup
     = (Returned aliceRegistration, afterSignup)
  /\ exists k a,
       mkRegistration (Own aliceKey) (Own alice) = mkRegistration (Own k) (Own a)
       /\ email a = "alice@example.com"
       /\ plan a = free
       /\ byEmail (users afterSignup) !! "alice@example.com" = Some k
       /\ byKey (users afterSignup) !! k = Some a.
Proof.
  assert (H : register signupAgain "alice@example.com" afterSignup
              = (Returned aliceRegistration, afterSignup))
    by (vm_compute; reflexivity).
  split; [exact consistent_afterSignup|]. split; [exact H|].
  exact (register_returns_account_of_email signupAgain "alice@example.com"
           afterSignup afterSignup _ consistent_afterSignup H).
Defined.

(** X6. From a consistent registry, a registration that draws a
    credential which no account has yet leaves every other lookup alone:
    [validateApiKey] answers as before for every string other than the
    registered address and the new credential. *)
Theorem register_frame (env : RegisterEnv) (email x : string) (s : State) :
  registryConsistent (users s) ->
  byKey (users s) !! generateApiKey (randomBytes env) = None ->
  x <> email ->
  x <> generateApiKey (randomBytes env) ->
  validateApiKey x (after (register env email s)) = validateApiKey x s.
Proof.
  intros Hinv Hfresh Hxe Hxk. unfold validateApiKey.
  destruct (register_users env email s) as [->|[Hat ->]]; [reflexivity|].
  cbn [byKey byEmail].
  assert (Hkey : forall y, y <> generateApiKey (randomBytes env) ->
            get (<[generateApiKey (randomBytes env) :=
                     mkUser (uuidv4 env) email free
                       (JSDate.toISOString (now env))]> (byKey (users s))) y
            = get (byKey (users s)) y).
  { intros y Hy. unfold get. now rewrite lookup_insert_ne by congruence. }
  destruct (includes x "@") eqn:Hx; [|now rewrite Hkey].
  assert (Hmail : get (<[email := generateApiKey (randomBytes env)]>
                         (byEmail (users s))) x
                  = get (byEmail (users s)) x).
  { unfold get. now rewrite lookup_insert_ne by congruence. }
  rewrite Hmail.
  rewrite (get_not_inherited _ x (inherits_no_at _ Hx)).
  destruct (byEmail (users s) !! x) as [k0|] eqn:Hk0; [|reflexivity].
  destruct (truthy_string (Own k0)); [|reflexivity]. cbn [negb to_key].
  rewrite Hkey; [reflexivity|].
  destruct (Hinv x k0 Hk0) as (_ & _ & a & Ha & _). congruence.
Qed.

Lemma register_frame_witness :
  registryConsistent (users afterSignup)
  /\ byKey (users afterSignup) !! generateApiKey (randomBytes signupAgain) = None
  /\ aliceKey <> "carol@example.com"
  /\ aliceKey <> generateApiKey (randomBytes signupAgain)
  /\ validateApiKey aliceKey
       (after (register signupAgain "carol@example.com" afterSignup))
     = validateApiKey aliceKey afterSignup.
Proof.
  assert (H2 : byKey (users afterSignup)
                 !! generateApiKey (randomBytes signupAgain) = None)
    by (vm_compute; reflexivity).
  assert (H3 : aliceKey <> "carol@example.com") by (vm_compute; discriminate).
  assert (H4 : aliceKey <> generateApiKey (randomBytes signupAgain))
    by (vm_compute; discriminate).
  split; [exact consistent_afterSignup|]. repeat (split; [assumption|]).
  exact (register_frame signupAgain "carol@example.com" aliceKey afterSignup
           consistent_afterSignup H2 H3 H4).
Defined.

End RegistryInvariant.

(** ** Restart *)
Section RestartFacts.

Lemma restart_fixed (s : State) :
  restart s = s ->
  users s = loadJSON (USERS_FILE s) {| byKey := ∅; byEmail := ∅ |}
  /\ usage s = loadJSON (USAGE_FILE s) ∅.
Proof.
  intros H. split.
  - exact (eq_sym (f_equal users H)).
  - exact (eq_sym (f_equal usage H)).
Qed.

(** Memory agrees with the users file after a call that did not fail to
    write it, and likewise for the usage file. A call writes at most one
    of the two files and never touches the other. *)
Lemma runCall_users_synced (c : Call) (s : State) :
  users s = loadJSON (USERS_FILE s) {| byKey := ∅; byEmail := ∅ |} ->
  usersWriteSucceeds c = true ->
  users (runCall c s)
  = loadJSON (USERS_FILE (runCall c s)) {| byKey := ∅; byEmail := ∅ |}.
Proof.
  intros Hs Hw. destruct c as [env address|env u|env u];
    cbn [runCall usersWriteSucceeds] in *.
  - unfold after. rewrite register_run.
    destruct (String.eqb address "" || negb (includes address "@"));
      [exact Hs|].
    rewrite registerUser_run, Hw. destruct (_ && _); [exact Hs|reflexivity].
  - unfold after. rewrite checkAndIncrement_run.
    destruct (below _ _); [destruct (usage_write_ok env)|]; exact Hs.
  - exact Hs.
Qed.

Lemma runCall_usage_synced (c : Call) (s : State) :
  usage s = loadJSON (USAGE_FILE s) ∅ ->
  usageWriteSucceeds c = true ->
  usage (runCall c s) = loadJSON (USAGE_FILE (runCall c s)) ∅.
Proof.
  intros Hs Hw. destruct c as [env address|env u|env u];
    cbn [runCall usageWriteSucceeds] in *.
  - unfold after. rewrite register_run.
    destruct (String.eqb address "" || negb (includes address "@"));
      [exact Hs|].
    rewrite registerUser_run.
    destruct (_ && _); [|destruct (write_ok env)]; exact Hs.
  - unfold after. rewrite checkAndIncrement_run, Hw.
    destruct (below _ _); [reflexivity | exact Hs].
  - exact Hs.
Qed.

Lemma writesSucceed_both (c : Call) :
  writesSucceed c = true ->
  usersWriteSucceeds c = true /\ usageWriteSucceeds c = true.
Proof. destruct c; cbn; auto. Qed.

Lemma runCall_persisted (c : Call) (s : State) :
  restart s = s -> writesSucceed c = true ->
  restart (runCall c s) = runCall c s.
Proof.
  intros Hs Hw. destruct (restart_fixed s Hs) as [Hus Hug].
  destruct (writesSucceed_both c Hw) as [Hw1 Hw2].
  pose proof (runCall_users_synced c s Hus Hw1) as H1.
  pose proof (runCall_usage_synced c s Hug Hw2) as H2.
  unfold restart. rewrite <- H1, <- H2. now destruct (runCall c s).
Qed.

(** X7. Durability: after any sequence of [register],
    [checkAndIncrement] and [getUsage] calls from the start whose writes
    all succeed, a restart of the process loads exactly the state that the
    calls left, registry and counters. *)
Theorem restart_after_successful_writes (cs : list Call) :
  forallb writesSucceed cs = true ->
  restart (runCalls cs boot) = runCalls cs boot.
Proof.
  assert (Hgen : forall s, restart s = s -> forallb writesSucceed cs = true ->
                   restart (runCalls cs s) = runCalls cs s).
  { induction cs as [|c cs IH]; intros s Hs Hall; [exact Hs|].
    cbn [forallb] in Hall. apply andb_true_iff in Hall as [Hc Hcs].
    cbn [runCalls fold_left]. apply IH; [|exact Hcs].
    now apply runCall_persisted. }
  exact (Hgen boot eq_refl).
Qed.

Lemma restart_after_successful_writes_witness :
  forallb writesSucceed
    [CallRegister signup "alice@example.com"; CallCheck noon alice;
     CallUsage noon alice] = true
  /\ restart (runCalls [CallRegister signup "alice@example.com";
                        CallCheck noon alice; CallUsage noon alice] boot)
     = runCalls [CallRegister signup "alice@example.com";
                 CallCheck noon alice; CallUsage noon alice] boot.
Proof.
  split; [reflexivity|].
  apply (restart_after_successful_writes
           [CallRegister signup "alice@example.com"; CallCheck noon alice;
            CallUsage noon alice]).
  reflexivity.
Defined.

(** X8. Each file is durable on its own: after any sequence of calls
    from the start in which every write of the users file succeeds, a
    restart loads the registry exactly as the calls left it, even if
    writes of the usage file failed in between; and after any sequence
    in which every write of the usage file succeeds, a restart loads the
    counters exactly as the calls left them, even if writes of the users
    file failed in between. *)
Theorem restart_keeps_what_was_written (cs : list Call) :
  (forallb usersWriteSucceeds cs = true ->
   users (restart (runCalls cs boot)) = users (runCalls cs boot))
  /\ (forallb usageWriteSucceeds cs = true ->
      usage (restart (runCalls cs boot)) = usage (runCalls cs boot)).
Proof.
  split.
  - assert (Hgen : forall s,
              users s = loadJSON (USERS_FILE s) {| byKey := ∅; byEmail := ∅ |} ->
              forallb usersWriteSucceeds cs = true ->
              users (restart (runCalls cs s)) = users (runCalls cs s)).
    { induction cs as [|c cs IH]; intros s Hs Hall;
        [symmetry; exact Hs|].
      cbn [forallb] in Hall. apply andb_true_iff in Hall as [Hc Hcs].
      cbn [runCalls fold_left]. apply IH; [|exact Hcs].
      now apply runCall_users_synced. }
    exact (Hgen boot eq_refl).
  - assert (Hgen : forall s,
              usage s = loadJSON (USAGE_FILE s) ∅ ->
              forallb usageWriteSucceeds cs = true ->
              usage (restart (runCalls cs s)) = usage (runCalls cs s)).
    { induction cs as [|c cs IH]; intros s Hs Hall;
        [symmetry; exact Hs|].
      cbn [forallb] in Hall. apply andb_true_iff in Hall as [Hc Hcs].
      cbn [runCalls fold_left]. apply IH; [|exact Hcs].
      now apply runCall_usage_synced. }
    exact (Hgen boot eq_refl).
Qed.

Lemma restart_keeps_what_was_written_witness :
  forallb usersWriteSucceeds
    [CallRegister signup "alice@example.com"; CallCheck noonDiskFull alice] = true
  /\ writesSucceed (CallCheck noonDiskFull alice) = false
  /\ users (restart (runCalls [CallRegister signup "alice@example.com";
                               CallCheck noonDiskFull alice] boot))
     = users (runCalls [CallRegister signup "alice@example.com";
                        CallCheck noonDiskFull alice] boot)
  /\ forallb usageWriteSucceeds
       [CallCheck noon alice; CallRegister signupDiskFull "alice@example.com"]
     = true
  /\ usage (restart (runCalls [CallCheck noon alice;
                               CallRegister signupDiskFull "alice@example.com"]
                        boot))
     = usage (runCalls [CallCheck noon alice;
                        CallRegister signupDiskFull "alice@example.com"] boot).
Proof.
  split; [reflexivity|]. split; [reflexivity|]. split.
  - apply (restart_keeps_what_was_written
             [CallRegister signup "alice@example.com";
              CallCheck noonDiskFull alice]).
    reflexivity.
  - split; [reflexivity|].
    apply (restart_keeps_what_was_written
             [CallCheck noon alice;
              CallRegister signupDiskFull "alice@example.com"]).
    reflexivity.
Defined.

End RestartFacts.

(** ** The day string *)
Section DayStringFacts.
Import JSDate JSDateFacts.

Lemma forallb_range (p : Z -> bool) (n : Z) :
  forallb p (map Z.of_nat (seq 0 (Z.to_nat n))) = true ->
  forall z, 0 <= z < n -> p z = true.
Proof.
  intros Hall z Hz. rewrite forallb_forall in Hall. apply Hall.
  apply in_map_iff. exists (Z.to_nat z). split; [lia|].
  apply in_seq. lia.
Qed.

Lemma fieldOk_year (y : Z) : 0 <= y < 10000 -> fieldOk 4 y = true.
Proof.
  apply (forallb_range (fieldOk 4) 10000). vm_compute. reflexivity.
Qed.

Lemma fieldOk_two (n : Z) : 0 <= n < 100 -> fieldOk 2 n = true.
Proof.
  apply (forallb_range (fieldOk 2) 100). vm_compute. reflexivity.
Qed.

Lemma fieldOk_spec (w : nat) (n : Z) :
  fieldOk w n = true ->
  String.length (pad w n) = w /\ readDigits 0 (pad w n) = n.
Proof.
  unfold fieldOk. intros [H1 H2]%andb_true_iff.
  split; [now apply Nat.eqb_eq | now apply Z.eqb_eq].
Qed.

Lemma slice0_all (n : nat) (s : string) :
  (String.length s <= n)%nat -> slice0 n s = s.
Proof.
  revert n. induction s as [|c s IH]; intros n Hn; [now destruct n|].
  destruct n as [|n]; cbn [String.length] in Hn; [lia|].
  cbn [slice0]. rewrite IH; [reflexivity | lia].
Qed.

Lemma append_inj_length (a1 a2 x y : string) :
  String.length a1 = String.length a2 ->
  a1 ++ x = a2 ++ y -> a1 = a2 /\ x = y.
Proof.
  revert a2. induction a1 as [|c a1 IH]; intros [|d a2] Hlen Heq;
    try discriminate Hlen.
  - now split.
  - rewrite !append_cons in Heq. injection Heq as -> Heq.
    cbn [String.length] in Hlen.
    destruct (IH a2 ltac:(lia) Heq) as [-> ->]. now split.
Qed.

Lemma YearFromTime_four_digits (t : Z) :
  0 <= t < year10000 -> 1970 <= YearFromTime t < 10000.
Proof.
  intros [Hlo Hhi].
  assert (Hday : 0 <= Day t < 2932897).
  { unfold Day, msPerDay, year10000 in *. split.
    - apply Z.div_pos; lia.
    - apply Z.div_lt_upper_bound; lia. }
  split; [apply YearFromDay_epoch; lia|].
  pose proof (YearFromDay_spec (Day t)) as [Hle _].
  unfold YearFromTime.
  destruct (Z.lt_ge_cases (YearFromDay (Day t)) 10000) as [H|H]; [exact H|].
  exfalso. revert Hle. generalize (YearFromDay (Day t)) H. intros y Hy.
  unfold DayFromYear. Z.div_mod_to_equations. lia.
Qed.

(** Within the four-digit years the day string is the whole ISO date,
    [YYYY-MM-DD]. *)
Lemma todayStr_fields (t : Z) :
  0 <= t < year10000 ->
  todayStr t = pad 4 (YearFromTime t) ++ "-" ++ pad 2 (MonthFromTime t + 1)
                 ++ "-" ++ pad 2 (DateFromTime t)
  /\ String.length (todayStr t) = 10%nat.
Proof.
  intros Ht. pose proof (YearFromTime_four_digits t Ht) as Hy.
  pose proof (MonthFromTime_range t) as Hm.
  pose proof (DateFromTime_range t) as Hd.
  destruct (fieldOk_spec 4 _ (fieldOk_year (YearFromTime t) ltac:(lia)))
    as [Ly _].
  destruct (fieldOk_spec 2 _ (fieldOk_two (MonthFromTime t + 1) ltac:(lia)))
    as [Lm _].
  destruct (fieldOk_spec 2 _ (fieldOk_two (DateFromTime t) ltac:(lia)))
    as [Ld _].
  assert (Hiso : isoDate t
                 = pad 4 (YearFromTime t) ++ "-" ++ pad 2 (MonthFromTime t + 1)
                     ++ "-" ++ pad 2 (DateFromTime t)).
  { unfold isoDate, isoYear.
    replace ((0 <=? YearFromTime t) && (YearFromTime t <=? 9999)) with true;
      [reflexivity|].
    symmetry. apply andb_true_iff. split; apply Z.leb_le; lia. }
  assert (Hlen : String.length (isoDate t) = 10%nat).
  { rewrite Hiso, !length_append, Ly, Lm, Ld. reflexivity. }
  rewrite todayStr_isoDate, slice0_all by lia. split; [exact Hiso | exact Hlen].
Qed.

Lemma todayStr_determines_day (t1 t2 : Z) :
  0 <= t1 < year10000 -> 0 <= t2 < year10000 ->
  todayStr t1 = todayStr t2 -> Day t1 = Day t2.
Proof.
  intros H1 H2 Heq.
  destruct (todayStr_fields t1 H1) as [E1 _].
  destruct (todayStr_fields t2 H2) as [E2 _].
  rewrite E1, E2 in Heq. clear E1 E2.
  pose proof (YearFromTime_four_digits t1 H1) as Hy1.
  pose proof (YearFromTime_four_digits t2 H2) as Hy2.
  pose proof (MonthFromTime_range t1) as Hm1.
  pose proof (MonthFromTime_range t2) as Hm2.
  pose proof (DateFromTime_range t1) as Hd1.
  pose proof (DateFromTime_range t2) as Hd2.
  destruct (fieldOk_spec 4 _ (fieldOk_year (YearFromTime t1) ltac:(lia)))
    as [Ly1 Vy1].
  destruct (fieldOk_spec 4 _ (fieldOk_year (YearFromTime t2) ltac:(lia)))
    as [Ly2 Vy2].
  destruct (fieldOk_spec 2 _ (fieldOk_two (MonthFromTime t1 + 1) ltac:(lia)))
    as [Lm1 Vm1].
  destruct (fieldOk_spec 2 _ (fieldOk_two (MonthFromTime t2 + 1) ltac:(lia)))
    as [Lm2 Vm2].
  destruct (fieldOk_spec 2 _ (fieldOk_two (DateFromTime t1) ltac:(lia)))
    as [_ Vd1].
  destruct (fieldOk_spec 2 _ (fieldOk_two (DateFromTime t2) ltac:(lia)))
    as [_ Vd2].
  apply append_inj_length in Heq as [Hy Heq]; [|congruence].
  apply (append_inj_length "-" "-") in Heq as [_ Heq]; [|reflexivity].
  apply append_inj_length in Heq as [Hm Heq]; [|congruence].
  apply (append_inj_length "-" "-") in Heq as [_ Hd]; [|reflexivity].
  assert (Ey : YearFromTime t1 = YearFromTime t2) by congruence.
  assert (Em : MonthFromTime t1 = MonthFromTime t2)
    by (assert (MonthFromTime t1 + 1 = MonthFromTime t2 + 1) by congruence; lia).
  assert (Ed : DateFromTime t1 = DateFromTime t2) by congruence.
  rewrite <- (MakeDay_fields t1), <- (MakeDay_fields t2). now rewrite Ey, Em, Ed.
Qed.

(** X9. From 1970 to the end of the year 9999 the day string of
    [todayStr] is the ten characters [YYYY-MM-DD], and two readings of
    the clock give the same day string exactly when they fall on the same
    UTC day: the usage key separates the days and nothing finer. *)
Theorem todayStr_same_iff_same_day (t1 t2 : Z) :
  0 <= t1 < year10000 -> 0 <= t2 < year10000 ->
  String.length (todayStr t1) = 10%nat
  /\ (todayStr t1 = todayStr t2 <-> Day t1 = Day t2).
Proof.
  intros H1 H2. split; [apply (todayStr_fields t1 H1)|]. split.
  - now apply todayStr_determines_day.
  - apply todayStr_Day.
Qed.

Lemma todayStr_same_iff_same_day_witness :
  0 <= clock_today lateEvening < year10000
  /\ 0 <= clock_today nextMorning < year10000
  /\ String.length (todayStr (clock_today lateEvening)) = 10%nat
  /\ (todayStr (clock_today lateEvening) = todayStr (clock_today nextMorning)
      <-> Day (clock_today lateEvening) = Day (clock_today nextMorning)).
Proof.
  assert (H1 : 0 <= clock_today lateEvening < year10000)
    by (vm_compute; split; [discriminate | reflexivity]).
  assert (H2 : 0 <= clock_today nextMorning < year10000)
    by (vm_compute; split; [discriminate | reflexivity]).
  split; [exact H1|]. split; [exact H2|].
  exact (todayStr_same_iff_same_day _ _ H1 H2).
Defined.

Example todayStr_samples :
  todayStr (clock_today lateEvening) = "2026-11-02"
  /\ todayStr (clock_today nextMorning) = "2026-11-03"
  /\ todayStr year10000 = "+010000-01".
Proof. vm_compute. repeat split. Qed.

(** X10. The reset time that is reported is the very instant at which the
    usage key changes: from the reading of the clock up to the reported
    second the day string stays the same, and at that second it is
    another one. *)
Theorem key_changes_at_reset (now : Z) :
  0 <= now -> now + msPerDay < year10000 ->
  endOfDayUnix now = Some (nextUtcMidnight now)
  /\ (forall t, now <= t < 1000 * nextUtcMidnight now ->
        todayStr t = todayStr now)
  /\ todayStr (1000 * nextUtcMidnight now) <> todayStr now.
Proof.
  intros Hlo Hhi. unfold msPerDay, year10000 in Hhi.
  pose proof (nextUtcMidnight_bounds now) as Hb. unfold msPerDay in Hb.
  split; [apply endOfDayUnix_spec; lia|]. split.
  - intros t Ht. apply todayStr_Day. unfold Day, msPerDay.
    unfold nextUtcMidnight in *. Z.div_mod_to_equations. lia.
  - intros Heq. apply todayStr_determines_day in Heq;
      [|unfold year10000; lia..].
    unfold Day, msPerDay, nextUtcMidnight in *. Z.div_mod_to_equations. lia.
Qed.

Lemma key_changes_at_reset_witness :
  0 <= clock_eod lateEvening
  /\ clock_eod lateEvening + msPerDay < year10000
  /\ endOfDayUnix (clock_eod lateEvening)
     = Some (nextUtcMidnight (clock_eod lateEvening))
  /\ (forall t, clock_eod lateEvening <= t
                < 1000 * nextUtcMidnight (clock_eod lateEvening) ->
        todayStr t = todayStr (clock_eod lateEvening))
  /\ todayStr (1000 * nextUtcMidnight (clock_eod lateEvening))
     <> todayStr (clock_eod lateEvening).
Proof.
  assert (H1 : 0 <= clock_eod lateEvening) by (vm_compute; discriminate).
  assert (H2 : clock_eod lateEvening + msPerDay < year10000)
    by (vm_compute; reflexivity).
  split; [exact H1|]. split; [exact H2|].
  exact (key_changes_at_reset (clock_eod lateEvening) H1 H2).
Defined.

End DayStringFacts.

(** ** Days and accounts in the ledger *)
Section LedgerSeparation.




(** A user id without a colon ends where the usage key has its first
    colon. *)
Lemma usageKey_userId (id1 id2 rest1 rest2 : string) :
  includes id1 ":" = false -> includes id2 ":" = false ->
  id1 ++ ":" ++ rest1 = id2 ++ ":" ++ rest2 -> id1 = id2.
Proof.
  revert id2. induction id1 as [|c id1 IH]; intros [|d id2] H1 H2 Heq.
  - reflexivity.
  - rewrite append_nil, append_cons in Heq. injection Heq as <- _.
    discriminate H2.
  - rewrite append_nil, append_cons in Heq. injection Heq as -> _.
    discriminate H1.
  - rewrite !append_cons in Heq. injection Heq as -> Heq.
    cbn [includes] in H1, H2.
    apply orb_false_iff in H1 as [_ H1]. apply orb_false_iff in H2 as [_ H2].
    now rewrite (IH id2 H1 H2 Heq).
Qed.

(** X12. Accounts are kept apart: when the user ids hold no colon (a
    UUID never does), a call of [checkAndIncrement] for one account
    leaves every counter of every account with another id as it was, on
    every day. *)
Theorem accounts_isolated (env : LedgerEnv) (u1 u2 : UserRecord) (t : Z)
    (s : State) :
  includes (userId u1) ":" = false ->
  includes (userId u2) ":" = false ->
  userId u1 <> userId u2 ->
  counter (after (checkAndIncrement env u1 s)) (usageKey u2 t)
  = counter s (usageKey u2 t).
Proof.
  intros H1 H2 Hne. rewrite counter_after_check.
  rewrite decide_False; [reflexivity|].
  intros Hkey. apply Hne. symmetry.
  exact (usageKey_userId _ _ _ _ H2 H1 Hkey).
Qed.

Lemma accounts_isolated_witness :
  includes (userId alice) ":" = false
  /\ includes (userId carol) ":" = false
  /\ userId alice <> userId carol
  /\ counter (after (checkAndIncrement noon alice boot))
       (usageKey carol (clock_today noon))
     = counter boot (usageKey carol (clock_today noon)).
Proof.
  assert (H1 : includes (userId alice) ":" = false) by reflexivity.
  assert (H2 : includes (userId carol) ":" = false) by reflexivity.
  assert (H3 : userId alice <> userId carol) by discriminate.
  split; [exact H1|]. split; [exact H2|]. split; [exact H3|].
  exact (accounts_isolated noon alice carol (clock_today noon) boot H1 H2 H3).
Defined.

(** X13. [getUsage] and [checkAndIncrement] agree for a free-plan
    account: a snapshot taken on the same day right after a call that
    returned shows the [used], [limit] and [remaining] of that call. *)
Theorem getUsage_agrees_with_call (env env' : LedgerEnv) (u : UserRecord)
    (s s' : State) (d : Decision) :
  plan u = free ->
  JSDate.Day (clock_today env') = JSDate.Day (clock_today env) ->
  checkAndIncrement env u s = (Returned d, s') ->
  used_today (getUsage env' u s') = used d
  /\ snap_limit (getUsage env' u s') = limit d
  /\ snap_remaining (getUsage env' u s') = remaining d.
Proof.
  intros Hfree Hday Hrun.
  assert (Hres : fst (checkAndIncrement env u s) = Returned d)
    by (now rewrite Hrun).
  assert (Hst : after (checkAndIncrement env u s) = s') by (now rewrite Hrun).
  pose proof (counter_after_check env u s (usageKey u (clock_today env))) as Hc.
  rewrite decide_True, Hst, Hfree in Hc by reflexivity.
  rewrite checkAndIncrement_run in Hres. rewrite Hfree in Hres.
  unfold getUsage. rewrite Hfree, (usageKey_Day u _ _ Hday).
  fold (counter s' (usageKey u (clock_today env))). rewrite Hc.
  cbn [LIMITS below used_today snap_limit snap_remaining] in *.
  destruct (Z.ltb_spec (counter s (usageKey u (clock_today env))) 10) as [Hlt|Hge].
  - destruct (usage_write_ok env); cbn [fst] in Hres; [|discriminate Hres].
    apply Returned_inj in Hres. subst d. cbn [used limit remaining].
    repeat split; lia.
  - cbn [fst] in Hres. apply Returned_inj in Hres. subst d.
    cbn [used limit remaining]. repeat split.
Qed.

Lemma getUsage_agrees_with_call_witness :
  plan alice = free
  /\ JSDate.Day (clock_today lateEvening) = JSDate.Day (clock_today noon)
  /\ checkAndIncrement noon alice boot
     = (Returned (mkDecision true 1 10 9 (Some 1793664000)
                    (mkHeaders "10" "10" "1793664000")),
        after (checkAndIncrement noon alice boot))
  /\ used_today (getUsage lateEvening alice
                   (after (checkAndIncrement noon alice boot))) = 1
  /\ snap_limit (getUsage lateEvening alice
                   (after (checkAndIncrement noon alice boot))) = 10
  /\ snap_remaining (getUsage lateEvening alice
                       (after (checkAndIncrement noon alice boot))) = 9.
Proof.
  assert (H1 : plan alice = free) by reflexivity.
  assert (H2 : JSDate.Day (clock_today lateEvening)
               = JSDate.Day (clock_today noon)) by reflexivity.
  assert (H3 : checkAndIncrement noon alice boot
               = (Returned (mkDecision true 1 10 9 (Some 1793664000)
                              (mkHeaders "10" "10" "1793664000")),
                  after (checkAndIncrement noon alice boot)))
    by (vm_compute; reflexivity).
  split; [exact H1|]. split; [exact H2|]. split; [exact H3|].
  exact (getUsage_agrees_with_call noon lateEvening alice boot _ _ H1 H2 H3).
Defined.

End LedgerSeparation.

(** ** The quota-gated routes *)
Section RouteFacts.

(** What [authMiddleware] puts in [req.user] is an account of the
    registry or a member of [Object.prototype]. *)
Lemma authMiddleware_cases (header : option string) (s : State) :
  authMiddleware header s = Unauthorized
  \/ (exists key u, header = Some key /\ key <> ""
                   /\ validateApiKey key s = Own u
                   /\ authMiddleware header s = Authenticated (Own u))
  \/ (exists key name, header = Some key /\ key <> ""
                      /\ validateApiKey key s = Inherited name
                      /\ authMiddleware header s = Authenticated (Inherited name)).
Proof.
  destruct header as [key|]; [|left; reflexivity]. cbn [authMiddleware].
  destruct (String.eqb_spec key "") as [->|Hne]; [left; reflexivity|].
  assert (Hv : exists v, validateApiKey key s = or_null v).
  { unfold validateApiKey. destruct (includes key "@"); [|eauto].
    destruct (negb _); [|eauto]. exists Null. reflexivity. }
  destruct Hv as [v Hv]. rewrite Hv.
  destruct v as [u|name| |]; cbn [or_null truthy_object negb].
  - right. left. exists key, u. repeat split; [exact Hne | exact Hv].
  - right. right. exists key, name. repeat split; [exact Hne | exact Hv].
  - left. reflexivity.
  - left. reflexivity.
Qed.

(** On an account of the registry the limiter transcribed for any value
    of [req.user] is [rateLimitMiddleware]. *)
Lemma rateLimitMiddlewareOn_account (env : LedgerEnv) (u : UserRecord)
    (s : State) :
  rateLimitMiddlewareOn env (Own u) s = rateLimitMiddleware env u s.
Proof.
  unfold rateLimitMiddlewareOn, rateLimitMiddleware, checkAndIncrementOn,
    checkAndIncrement, usageKey.
  cbn [propertyOf default fmap option_fmap option_map]. run_M.
  destruct (LIMITS (plan u)) as [n|]; cbn [below];
    [destruct (_ <? _)|]; try destruct (usage_write_ok env); reflexivity.
Qed.

(** On a member of [Object.prototype] it denies without reading more than
    the clock and without writing. *)
Lemma rateLimitMiddlewareOn_member (env : LedgerEnv) (name : string)
    (s : State) :
  rateLimitMiddlewareOn env (Inherited name) s
  = (Returned
       (RateLimitExceeded
          (mkHeaders "undefined" "NaN"
             (String_of_number (endOfDayUnix (clock_eod env))))), s).
Proof.
  unfold rateLimitMiddlewareOn, checkAndIncrementOn.
  cbn [propertyOf default fmap option_fmap option_map]. run_M.
  reflexivity.
Qed.

(** The route once [authMiddleware] has found an account. *)
Lemma gatedRoute_account (env : LedgerEnv) (backendOk : bool) (key : string)
    (u : UserRecord) (req : GatedRequest) (s : State) :
  key <> "" -> validateApiKey key s = Own u ->
  gatedRoute env backendOk (Some key) req s =
    match checkAndIncrement env u s with
    | (Thrown, s') => (Thrown, s')
    | (Returned d, s') =>
        (Returned
           (if negb (allowed d)
            then mkHandled (mkResponse 429 (Some "RATE_LIMIT_EXCEEDED")
                              (Some (headers d))) false
            else if negb (bodyAccepted req)
            then mkHandled (mkResponse 400 (Some "INVALID_REQUEST") None) false
            else if backendOk
            then mkHandled (mkResponse 200 None (Some (headers d))) true
            else mkHandled (mkResponse 500 (Some "INTERNAL_ERROR") None) true),
         s')
    end.
Proof.
  intros Hne Hkey. unfold gatedRoute. run_M. cbn [authMiddleware].
  apply String.eqb_neq in Hne. rewrite Hne, Hkey.
  cbn [truthy_object negb].
  rewrite rateLimitMiddlewareOn_account, rateLimitMiddleware_run.
  destruct (checkAndIncrement env u s) as [[d|] s']; [|reflexivity].
  destruct (allowed d); cbn [negb]; [|reflexivity].
  destruct (negb (bodyAccepted req)); [reflexivity|].
  destruct backendOk; reflexivity.
Qed.

(** X14. A request that is turned away changes nothing: whenever a gated
    route answers 401 or 429, the state is exactly as before and the
    backend has not been called. The route itself throws only when the
    write of the usage file fails. *)
Theorem rejected_request_changes_nothing (env : LedgerEnv) (backendOk : bool)
    (header : option string) (req : GatedRequest) (s : State) :
  match fst (gatedRoute env backendOk header req s) with
  | Returned h =>
      status (response h) = 401 \/ status (response h) = 429 ->
      snd (gatedRoute env backendOk header req s) = s
      /\ calledBackend h = false
  | Thrown => usage_write_ok env = false
  end.
Proof.
  destruct (authMiddleware_cases header s)
    as [Hun|[(key & u & -> & Hne & Hkey & _)|(key & name & -> & Hne & Hkey & Hauth)]].
  - unfold gatedRoute. run_M. rewrite Hun. cbn [fst snd response calledBackend].
    intros _. split; reflexivity.
  - rewrite (gatedRoute_account env backendOk key u req s Hne Hkey).
    rewrite checkAndIncrement_run.
    destruct (below _ _).
    + destruct (usage_write_ok env); [|reflexivity].
      cbn [fst snd allowed negb].
      destruct (negb (bodyAccepted req)); [|destruct backendOk];
        cbn [response status]; intros [H|H]; discriminate H.
    + cbn [fst snd allowed negb response calledBackend]. intros _.
      split; reflexivity.
  - unfold gatedRoute. run_M. rewrite Hauth.
    rewrite rateLimitMiddlewareOn_member.
    cbn [fst snd response calledBackend]. intros _. split; reflexivity.
Qed.

(** X15. The quota is charged before the body is looked at: a request of
    a registered account that is under its limit and whose body the route
    rejects is answered 400 without rate-limit headers and without a call
    of the backend, and the counter of the account has gone up by one. *)
Theorem invalid_body_still_consumes_quota (env : LedgerEnv)
    (backendOk : bool) (key : string) (u : UserRecord) (req : GatedRequest)
    (s : State) :
  key <> "" -> validateApiKey key s = Own u ->
  below (counter s (usageKey u (clock_today env))) (LIMITS (plan u)) = true ->
  usage_write_ok env = true ->
  bodyAccepted req = false ->
  fst (gatedRoute env backendOk (Some key) req s)
  = Returned (mkHandled (mkResponse 400 (Some "INVALID_REQUEST") None) false)
  /\ counter (snd (gatedRoute env backendOk (Some key) req s))
       (usageKey u (clock_today env))
     = counter s (usageKey u (clock_today env)) + 1.
Proof.
  intros Hne Hkey Hbelow Hw Hbody.
  pose proof (counter_after_check env u s (usageKey u (clock_today env))) as Hc.
  rewrite decide_True, Hbelow in Hc by reflexivity. unfold after in Hc.
  rewrite (gatedRoute_account env backendOk key u req s Hne Hkey).
  rewrite checkAndIncrement_run in Hc |- *. rewrite Hbelow, Hw in Hc |- *.
  cbn [fst snd allowed negb] in Hc |- *. rewrite Hbody. cbn [negb].
  split; [reflexivity | exact Hc].
Qed.

(** X16. Once the limiter has let a request through, the charge stays
    whatever the backend does: if the backend fails the answer is 500
    without rate-limit headers, if it succeeds the answer is 200 with the
    headers that [checkAndIncrement] built; in both cases the counter has
    gone up by one. *)
Theorem backend_outcome_keeps_charge (env : LedgerEnv) (backendOk : bool)
    (key : string) (u : UserRecord) (req : GatedRequest) (s : State) :
  key <> "" -> validateApiKey key s = Own u ->
  below (counter s (usageKey u (clock_today env))) (LIMITS (plan u)) = true ->
  usage_write_ok env = true ->
  bodyAccepted req = true ->
  exists d,
    fst (checkAndIncrement env u s) = Returned d
    /\ fst (gatedRoute env backendOk (Some key) req s)
       = Returned
           (if backendOk
            then mkHandled (mkResponse 200 None (Some (headers d))) true
            else mkHandled (mkResponse 500 (Some "INTERNAL_ERROR") None) true)
    /\ counter (snd (gatedRoute env backendOk (Some key) req s))
         (usageKey u (clock_today env))
       = counter s (usageKey u (clock_today env)) + 1.
Proof.
  intros Hne Hkey Hbelow Hw Hbody.
  pose proof (counter_after_check env u s (usageKey u (clock_today env))) as Hc.
  rewrite decide_True, Hbelow in Hc by reflexivity. unfold after in Hc.
  rewrite (gatedRoute_account env backendOk key u req s Hne Hkey).
  rewrite checkAndIncrement_run in Hc |- *. rewrite Hbelow, Hw in Hc |- *.
  cbn [fst snd allowed negb headers] in Hc |- *. rewrite Hbody. cbn [negb].
  eexists. split; [reflexivity|]. split; [|exact Hc].
  destruct backendOk; reflexivity.
Qed.

(** X17. A free-plan account that stands at its limit or above is
    answered 429 with the code [RATE_LIMIT_EXCEEDED] and the headers
    limit 10, remaining 0, whatever the body is and whether or not the
    disk can be written; nothing changes and the backend is not called. *)
Theorem exhausted_account_gets_429 (env : LedgerEnv) (backendOk : bool)
    (key : string) (u : UserRecord) (req : GatedRequest) (s : State) :
  key <> "" -> validateApiKey key s = Own u ->
  plan u = free ->
  10 <= counter s (usageKey u (clock_today env)) ->
  gatedRoute env backendOk (Some key) req s
  = (Returned
       (mkHandled
          (mkResponse 429 (Some "RATE_LIMIT_EXCEEDED")
             (Some (mkHeaders "10" "0"
                      (String_of_number (endOfDayUnix (clock_eod env))))))
          false), s).
Proof.
  intros Hne Hkey Hfree Hfull.
  rewrite (gatedRoute_account env backendOk key u req s Hne Hkey).
  rewrite checkAndIncrement_run. rewrite Hfree. cbn [LIMITS below].
  replace (counter s (usageKey u (clock_today env)) <? 10) with false
    by (symmetry; apply Z.ltb_ge; exact Hfull).
  cbn [allowed negb headers].
  replace (Z.max 0 (10 - counter s (usageKey u (clock_today env)))) with 0
    by lia.
  reflexivity.
Qed.

(** X18. The name of a member of [Object.prototype] that gets past
    [authMiddleware] does not get past the limiter: the gated routes
    answer it 429, with [undefined] and [NaN] in the headers, change
    nothing and do not call the backend. *)
Theorem prototype_member_stopped_by_limiter (env : LedgerEnv)
    (backendOk : bool) (name : string) (req : GatedRequest) (s : State) :
  inherits name = true ->
  byKey (users s) !! name = None ->
  authMiddleware (Some name) s = Authenticated (Inherited name)
  /\ gatedRoute env backendOk (Some name) req s
     = (Returned
          (mkHandled
             (mkResponse 429 (Some "RATE_LIMIT_EXCEEDED")
                (Some (mkHeaders "undefined" "NaN"
                         (String_of_number (endOfDayUnix (clock_eod env))))))
             false), s).
Proof.
  intros Hin Hkey.
  assert (Hauth : authMiddleware (Some name) s = Authenticated (Inherited name)).
  { cbn [authMiddleware]. rewrite (validateApiKey_inherited name s Hkey Hin).
    destruct (String.eqb_spec name "") as [->|_]; [discriminate Hin|].
    reflexivity. }
  split; [exact Hauth|].
  unfold gatedRoute. run_M. rewrite Hauth.
  rewrite rateLimitMiddlewareOn_member. reflexivity.
Qed.

End RouteFacts.

(** ** The routes on the sample data *)

Lemma invalid_body_still_consumes_quota_witness :
  aliceKey <> ""
  /\ validateApiKey aliceKey afterSignup = Own alice
  /\ below (counter afterSignup (usageKey alice (clock_today noon)))
       (LIMITS (plan alice)) = true
  /\ usage_write_ok noon = true
  /\ bodyAccepted (PostGenerate None) = false
  /\ fst (gatedRoute noon true (Some aliceKey) (PostGenerate None) afterSignup)
     = Returned (mkHandled (mkResponse 400 (Some "INVALID_REQUEST") None) false)
  /\ counter (snd (gatedRoute noon true (Some aliceKey) (PostGenerate None)
                     afterSignup))
       (usageKey alice (clock_today noon))
     = counter afterSignup (usageKey alice (clock_today noon)) + 1.
Proof.
  assert (H1 : aliceKey <> "") by (vm_compute; discriminate).
  assert (H2 : validateApiKey aliceKey afterSignup = Own alice)
    by (vm_compute; reflexivity).
  assert (H3 : below (counter afterSignup (usageKey alice (clock_today noon)))
                 (LIMITS (plan alice)) = true) by (vm_compute; reflexivity).
  split; [exact H1|]. split; [exact H2|]. split; [exact H3|].
  split; [reflexivity|]. split; [reflexivity|].
  exact (invalid_body_still_consumes_quota noon true aliceKey alice
           (PostGenerate None) afterSignup H1 H2 H3 eq_refl eq_refl).
Defined.

Lemma backend_outcome_keeps_charge_witness :
  aliceKey <> ""
  /\ validateApiKey aliceKey afterSignup = Own alice
  /\ below (counter afterSignup (usageKey alice (clock_today noon)))
       (LIMITS (plan alice)) = true
  /\ usage_write_ok noon = true
  /\ bodyAccepted (PostRewrite (Some "see you at ten") (Some "friendly")) = true
  /\ exists d,
       fst (checkAndIncrement noon alice afterSignup) = Returned d
       /\ fst (gatedRoute noon false (Some aliceKey)
                 (PostRewrite (Some "see you at ten") (Some "friendly"))
                 afterSignup)
          = Returned
              (mkHandled (mkResponse 500 (Some "INTERNAL_ERROR") None) true)
       /\ counter (snd (gatedRoute noon false (Some aliceKey)
                          (PostRewrite (Some "see you at ten") (Some "friendly"))
                          afterSignup))
            (usageKey alice (clock_today noon))
          = counter afterSignup (usageKey alice (clock_today noon)) + 1.
Proof.
  assert (H1 : aliceKey <> "") by (vm_compute; discriminate).
  assert (H2 : validateApiKey aliceKey afterSignup = Own alice)
    by (vm_compute; reflexivity).
  assert (H3 : below (counter afterSignup (usageKey alice (clock_today noon)))
                 (LIMITS (plan alice)) = true) by (vm_compute; reflexivity).
  split; [exact H1|]. split; [exact H2|]. split; [exact H3|].
  split; [reflexivity|]. split; [reflexivity|].
  exact (backend_outcome_keeps_charge noon false aliceKey alice
           (PostRewrite (Some "see you at ten") (Some "friendly")) afterSignup
           H1 H2 H3 eq_refl eq_refl).
Defined.

Lemma exhausted_account_gets_429_witness :
  aliceKey <> ""
  /\ validateApiKey aliceKey exhausted = Own alice
  /\ plan alice = free
  /\ 10 <= counter exhausted (usageKey alice (clock_today lateEvening))
  /\ gatedRoute lateEvening true (Some aliceKey)
       (PostSummarize (Some [("bob", "hello")])) exhausted
     = (Returned
          (mkHandled
             (mkResponse 429 (Some "RATE_LIMIT_EXCEEDED")
                (Some (mkHeaders "10" "0"
                         (String_of_number
                            (endOfDayUnix (clock_eod lateEvening))))))
             false), exhausted).
Proof.
  assert (H1 : aliceKey <> "") by (vm_compute; discriminate).
  assert (H2 : validateApiKey aliceKey exhausted = Own alice)
    by (vm_compute; reflexivity).
  assert (H4 : 10 <= counter exhausted (usageKey alice (clock_today lateEvening)))
    by (vm_compute; discriminate).
  split; [exact H1|]. split; [exact H2|]. split; [reflexivity|].
  split; [exact H4|].
  exact (exhausted_account_gets_429 lateEvening true aliceKey alice
           (PostSummarize (Some [("bob", "hello")])) exhausted
           H1 H2 eq_refl H4).
Defined.

Lemma prototype_member_stopped_by_limiter_witness :
  inherits "constructor" = true
  /\ byKey (users afterSignup) !! "constructor" = None
  /\ authMiddleware (Some "constructor") afterSignup
     = Authenticated (Inherited "constructor")
  /\ gatedRoute noon true (Some "constructor") (PostGenerate (Some "Hi"))
       afterSignup
     = (Returned
          (mkHandled
             (mkResponse 429 (Some "RATE_LIMIT_EXCEEDED")
                (Some (mkHeaders "undefined" "NaN"
                         (String_of_number (endOfDayUnix (clock_eod noon))))))
             false), afterSignup).
Proof.
  assert (H1 : inherits "constructor" = true) by reflexivity.
  assert (H2 : byKey (users afterSignup) !! "constructor" = None)
    by (vm_compute; reflexivity).
  split; [exact H1|]. split; [exact H2|].
  exact (prototype_member_stopped_by_limiter noon true "constructor"
           (PostGenerate (Some "Hi")) afterSignup H1 H2).
Defined.

(** ** The tone of a rewrite *)
Section ToneFacts.

Lemma TONE_INSTRUCTIONS_lookup (tone guide : string) :
  TONE_INSTRUCTIONS !! tone = Some guide ->
  guide <> ""
  /\ (tone = "professional" \/ tone = "friendly" \/ tone = "direct"
      \/ tone = "concise").
Proof.
  unfold TONE_INSTRUCTIONS. intros H.
  apply elem_of_list_to_map_2 in H.
  repeat (apply elem_of_cons in H as [[= -> ->]|H];
          [split; [discriminate | tauto]|]).
  inversion H.
Qed.

(** X19. [rewriteText] always finds a guide for a tone that is not the
    name of a member of [Object.prototype]: the guide of the tone itself
    if it is one of the four known tones, the professional guide for
    every other string; the guide is never empty. *)
Theorem toneGuide_falls_back (tone : string) :
  inherits tone = false ->
  exists guide,
    toneGuide tone = Own guide /\ guide <> ""
    /\ (TONE_INSTRUCTIONS !! tone = Some guide
        \/ (TONE_INSTRUCTIONS !! tone = None
            /\ tone <> "professional" /\ tone <> "friendly"
            /\ tone <> "direct" /\ tone <> "concise"
            /\ TONE_INSTRUCTIONS !! "professional" = Some guide)).
Proof.
  intros Hin. unfold toneGuide. rewrite (get_not_inherited _ tone Hin).
  destruct (TONE_INSTRUCTIONS !! tone) as [guide|] eqn:Hlook.
  - destruct (TONE_INSTRUCTIONS_lookup tone guide Hlook) as [Hne _].
    exists guide. cbn [truthy_string].
    apply String.eqb_neq in Hne. rewrite Hne. cbn [negb].
    apply String.eqb_neq in Hne. auto.
  - cbn [truthy_string].
    exists "Formal, polished, business-appropriate. Clear structure, proper grammar, respectful tone.".
    split; [vm_compute; reflexivity|]. split; [discriminate|]. right.
    split; [reflexivity|].
    repeat (split; [intros ->; vm_compute in Hlook; discriminate Hlook|]).
    vm_compute. reflexivity.
Qed.

Lemma toneGuide_falls_back_witness :
  inherits "sarcastic" = false
  /\ exists guide,
       toneGuide "sarcastic" = Own guide /\ guide <> ""
       /\ (TONE_INSTRUCTIONS !! "sarcastic" = Some guide
           \/ (TONE_INSTRUCTIONS !! "sarcastic" = None
               /\ "sarcastic" <> "professional" /\ "sarcastic" <> "friendly"
               /\ "sarcastic" <> "direct" /\ "sarcastic" <> "concise"
               /\ TONE_INSTRUCTIONS !! "professional" = Some guide)).
Proof.
  split; [reflexivity|].
  apply (toneGuide_falls_back "sarcastic"). reflexivity.
Defined.

Example toneGuide_samples :
  toneGuide "direct"
  = Own "Cut the fluff. State what you need clearly. Short sentences. No unnecessary pleasantries."
  /\ toneGuide "sarcastic" = toneGuide "professional"
  /\ toneGuide "valueOf" = Inherited "valueOf".
Proof. vm_compute. repeat split. Qed.

End ToneFacts.

(** ** From registration to the limit *)
Section EndToEnd.

Lemma validateApiKey_users (x : string) (s s' : State) :
  users s = users s' -> validateApiKey x s = validateApiKey x s'.
Proof. intros H. unfold validateApiKey. now rewrite H. Qed.

(** Requests of one free-plan account served in a row on one day,
    starting from a counter [c]. *)
Lemma serveAll_free (key : string) (u : UserRecord) (day : Z)
    (req : GatedRequest) (envs : list LedgerEnv) :
  key <> "" -> plan u = free -> bodyAccepted req = true ->
  Forall (fun env => JSDate.Day (clock_today env) = day
                     /\ usage_write_ok env = true) envs ->
  forall (s : State) (c : Z),
    validateApiKey key s = Own u ->
    (forall t, JSDate.Day t = day -> counter s (usageKey u t) = c) ->
    forall (i : nat) (env : LedgerEnv), envs !! i = Some env ->
      exists h,
        fst (serveAll envs (Some key) req s) !! i = Some (Returned h)
        /\ status (response h) = (if c + Z.of_nat i <? 10 then 200 else 429)
        /\ calledBackend h = (c + Z.of_nat i <? 10)
        /\ X_RateLimit_Remaining <$> rateHeaders (response h)
           = Some (String_of_Z (Z.max 0 (10 - (c + Z.of_nat i)))).
Proof.
  intros Hne Hfree Hbody Henvs.
  induction Henvs as [|e envs [Hday Hw] _ IH];
    intros s c Hkey Hc i env Hi; [discriminate Hi|].
  pose proof (Hc _ Hday) as Hc0.
  pose proof (gatedRoute_account e true key u req s Hne Hkey) as Hroute.
  rewrite checkAndIncrement_run in Hroute.
  rewrite Hfree, Hw, Hc0, Hbody in Hroute. cbn [LIMITS below negb] in Hroute.
  destruct i as [|i]; cbn [serveAll fst lookup list_lookup].
  - unfold result. rewrite Hroute. rewrite Z.add_0_r.
    destruct (c <? 10); cbn [fst allowed negb headers]; eexists;
      (split; [reflexivity|]); repeat split.
  - cbn [lookup list_lookup] in Hi.
    assert (Hafter : after (gatedRoute e true (Some key) req s)
                     = after (checkAndIncrement e u s)).
    { unfold after. rewrite (gatedRoute_account e true key u req s Hne Hkey).
      destruct (checkAndIncrement e u s) as [[d|] s']; reflexivity. }
    destruct (IH (after (gatedRoute e true (Some key) req s))
                 (if c <? 10 then c + 1 else c)) with (i := i) (env := env)
      as (h & Hh & Hs & Hb & Hr); [| |exact Hi|].
    + rewrite Hafter, <- Hkey. apply validateApiKey_users.
      apply checkAndIncrement_users.
    + intros t Ht. rewrite Hafter, counter_after_check.
      rewrite decide_True by (apply usageKey_Day; congruence).
      rewrite (Hc t Ht), Hfree. reflexivity.
    + exists h. split; [exact Hh|]. rewrite Hs, Hb, Hr.
      destruct (Z.ltb_spec c 10) as [Hlt|Hge].
      * replace (c + 1 + Z.of_nat i) with (c + Z.of_nat (S i)) by lia.
        repeat split.
      * assert (E1 : (c + Z.of_nat i <? 10) = false) by (apply Z.ltb_ge; lia).
        assert (E2 : (c + Z.of_nat (S i) <? 10) = false)
          by (apply Z.ltb_ge; lia).
        rewrite E1, E2. repeat split. do 2 f_equal. lia.
Qed.

(** X20. End to end, on an empty registry: registering a valid address
    (the write succeeding) hands out a credential; [/api/usage] with that
    credential then reports the free plan with 0 used, limit 10 and 10
    remaining; and of the requests that follow on one day with an
    accepted body, the first ten are answered 200 after a call of the
    backend, the eleventh and all later ones 429 with
    [X-RateLimit-Remaining: 0] and without one. *)
Theorem register_then_ten_requests (env : RegisterEnv) (address : string)
    (day : Z) (peek : LedgerEnv) (envs : list LedgerEnv)
    (req : GatedRequest) :
  includes address "@" = true ->
  write_ok env = true ->
  bodyAccepted req = true ->
  Forall (fun e => JSDate.Day (clock_today e) = day
                   /\ usage_write_ok e = true) envs ->
  let k := generateApiKey (randomBytes env) in
  let a := mkUser (uuidv4 env) address free (JSDate.toISOString (now env)) in
  let s1 := after (register env address boot) in
  register env address boot
  = (Returned (Registered (mkRegistration (Own k) (Own a))), s1)
  /\ usageRoute peek (Some k) s1
     = UsageOk (mkUsageSnapshot free 0 10 10 (endOfDayUnix (clock_eod peek)))
  /\ forall i, (i < length envs)%nat ->
       exists h,
         fst (serveAll envs (Some k) req s1) !! i = Some (Returned h)
         /\ ((i < 10)%nat ->
             status (response h) = 200 /\ calledBackend h = true)
         /\ ((10 <= i)%nat ->
             status (response h) = 429 /\ calledBackend h = false
             /\ X_RateLimit_Remaining <$> rateHeaders (response h) = Some "0").
Proof.
  intros Hat Hw Hbody Henvs k a s1.
  assert (Hvalid : String.eqb address "" || negb (includes address "@") = false).
  { rewrite Hat. destruct (String.eqb_spec address "") as [->|_];
      [discriminate Hat | reflexivity]. }
  assert (Hreg : register env address boot
                 = (Returned (Registered (mkRegistration (Own k) (Own a))),
                    mkState (mkUsers (<[k := a]> ∅) (<[address := k]> ∅)) ∅
                      (Some (mkUsers (<[k := a]> ∅) (<[address := k]> ∅)))
                      None)).
  { rewrite register_run, Hvalid, registerUser_run.
    rewrite (get_not_inherited _ address (inherits_no_at _ Hat)).
    cbn [boot loadJSON default users byEmail byKey usage USAGE_FILE].
    rewrite lookup_empty. cbn [truthy_string andb]. rewrite Hw.
    rewrite (set_string_email _ _ _ Hat). reflexivity. }
  assert (Hs1 : s1 = mkState (mkUsers (<[k := a]> ∅) (<[address := k]> ∅)) ∅
                       (Some (mkUsers (<[k := a]> ∅) (<[address := k]> ∅)))
                       None)
    by (subst s1; unfold after; now rewrite Hreg).
  assert (Hkey : validateApiKey k s1 = Own a).
  { rewrite Hs1. unfold validateApiKey. subst k.
    rewrite generateApiKey_no_at. cbn [users byKey].
    now rewrite get_insert_eq. }
  assert (Hne : k <> "") by (subst k; rewrite generateApiKey_cons; discriminate).
  assert (Hzero : forall t, counter s1 (usageKey a t) = 0).
  { intros t. rewrite Hs1. unfold counter. cbn [usage].
    rewrite usedToday_own. now rewrite lookup_empty. }
  split; [rewrite Hreg, Hs1; reflexivity|]. split.
  - unfold usageRoute. cbn [authMiddleware].
    apply String.eqb_neq in Hne. rewrite Hne, Hkey.
    cbn [truthy_object negb]. unfold getUsage. cbn [plan LIMITS].
    fold (counter s1 (usageKey a (clock_today peek))). rewrite Hzero.
    reflexivity.
  - intros i Hi.
    destruct (lookup_lt_is_Some_2 envs i Hi) as [e He].
    destruct (serveAll_free k a day req envs Hne eq_refl Hbody Henvs s1 0 Hkey
                (fun t _ => Hzero t) i e He) as (h & Hh & Hs & Hb & Hr).
    exists h. split; [exact Hh|]. split.
    + intros Hlt. rewrite Hs, Hb.
      replace (0 + Z.of_nat i <? 10) with true
        by (symmetry; apply Z.ltb_lt; lia).
      split; reflexivity.
    + intros Hge. rewrite Hs, Hb, Hr.
      replace (0 + Z.of_nat i <? 10) with false
        by (symmetry; apply Z.ltb_ge; lia).
      replace (Z.max 0 (10 - (0 + Z.of_nat i))) with 0 by lia.
      repeat split.
Qed.

End EndToEnd.

Lemma register_then_ten_requests_witness :
  includes "alice@example.com" "@" = true
  /\ write_ok signup = true
  /\ bodyAccepted (PostGenerate (Some "Quarterly report")) = true
  /\ Forall (fun e => JSDate.Day (clock_today e) = 20759
                      /\ usage_write_ok e = true) elevenCalls
  /\ usageRoute noon (Some aliceKey) afterSignup
     = UsageOk (mkUsageSnapshot free 0 10 10 (endOfDayUnix (clock_eod noon)))
  /\ exists h,
       fst (serveAll elevenCalls (Some aliceKey)
              (PostGenerate (Some "Quarterly report")) afterSignup) !! 10%nat
       = Some (Returned h)
       /\ status (response h) = 429 /\ calledBackend h = false
       /\ X_RateLimit_Remaining <$> rateHeaders (response h) = Some "0".
Proof.
  assert (H1 : includes "alice@example.com" "@" = true) by reflexivity.
  assert (H2 : write_ok signup = true) by reflexivity.
  assert (H3 : bodyAccepted (PostGenerate (Some "Quarterly report")) = true)
    by reflexivity.
  assert (H4 : Forall (fun e => JSDate.Day (clock_today e) = 20759
                                /\ usage_write_ok e = true) elevenCalls)
    by (repeat constructor).
  split; [exact H1|]. split; [exact H2|]. split; [exact H3|].
  split; [exact H4|].
  destruct (register_then_ten_requests signup "alice@example.com" 20759 noon
              elevenCalls (PostGenerate (Some "Quarterly report"))
              H1 H2 H3 H4) as (_ & Husage & Hall).
  split; [exact Husage|].
  destruct (Hall 10%nat ltac:(vm_compute; lia)) as (h & Hh & _ & Hdenied).
  exists h. split; [exact Hh|]. apply Hdenied. lia.
Defined.
